(** * BdF publication monitor (bdf_gmail_api_notifier.py): model and properties

    The development follows the class [BdFGmailAPINotifier]:
    - text is a sequence of Unicode code points; the character tables of
      the interpreter (white space, digits, letters, case folding) are an
      interface, [UnicodeDB], with an instance for the ASCII range that is
      used to run the model on concrete pages;
    - [re.search] and [re.finditer] are a backtracking matcher over the
      fragment of the regular-expression syntax the program uses;
    - the HTTP session, the HTML parser, the Gmail service, the clock and
      the [json] module are collaborators: what they return is part of the
      environment [Env] (or of the interface [JsonCodec]);
    - methods that log, read the clock, touch the state file or send mail
      are programs in a state-and-exception monad over [World]. *)

From Stdlib Require Import String Ascii List ZArith NArith Lia Bool Arith.
Import ListNotations.

Set Implicit Arguments.
Set Warnings "-register-all".


(** ** Text *)

Definition char := N.
Definition pystr := list char.

(** A literal of the source, as code points (ASCII literals only). *)
Definition str (s : string) : pystr :=
  map N_of_ascii (list_ascii_of_string s).

Definition pystr_eq_dec : forall a b : pystr, {a = b} + {a <> b} :=
  list_eq_dec N.eq_dec.

Definition pystr_eqb (a b : pystr) : bool :=
  if pystr_eq_dec a b then true else false.

(** The tables of the interpreter that the program reads through [str]
    methods and through [re]. *)
Class UnicodeDB := {
  (** [str.isspace] on one character: what [str.strip()] removes and what
      [\s] matches *)
  uni_isspace : char -> bool;
  (** decimal digits, [\d] *)
  uni_isdigit : char -> bool;
  (** alphanumeric characters; [\w] is these and the underscore *)
  uni_isalnum : char -> bool;
  (** [re.IGNORECASE]: does the pattern character match the text character *)
  uni_ci_eq : char -> char -> bool;
  (** [str.lower()] *)
  str_lower : pystr -> pystr
}.

Definition NL : char := 10%N.

Definition ascii_lower (c : char) : char :=
  if ((65 <=? c) && (c <=? 90))%N then (c + 32)%N else c.

(** The tables on the ASCII range. Code points from 128 on are left
    unclassified: the instance is meant for ASCII text. *)
Definition ascii_db : UnicodeDB := {|
  uni_isspace c := ((9 <=? c) && (c <=? 13) || (28 <=? c) && (c <=? 32))%N;
  uni_isdigit c := ((48 <=? c) && (c <=? 57))%N;
  uni_isalnum c := ((48 <=? c) && (c <=? 57) || (65 <=? c) && (c <=? 90)
                    || (97 <=? c) && (c <=? 122))%N;
  uni_ci_eq a b := (ascii_lower a =? ascii_lower b)%N;
  str_lower := map ascii_lower
|}.

(** [s[a:b]] for [0 <= a], [0 <= b] *)
Definition slice (a b : nat) (s : pystr) : pystr := firstn (b - a) (skipn a s).

(** [s.split(sep)] for a one-character separator *)
Fixpoint split_on (sep : char) (s : pystr) : list pystr :=
  match s with
  | [] => [[]]
  | c :: s' =>
      if (c =? sep)%N then [] :: split_on sep s'
      else match split_on sep s' with
           | l :: ls => (c :: l) :: ls
           | [] => [[c]]
           end
  end.

Fixpoint drop_while (p : char -> bool) (s : pystr) : pystr :=
  match s with
  | [] => []
  | c :: s' => if p c then drop_while p s' else s
  end.

Section Text.
Context {U : UnicodeDB}.

Definition lstrip (s : pystr) : pystr := drop_while uni_isspace s.
Definition rstrip (s : pystr) : pystr := rev (drop_while uni_isspace (rev s)).
(** [s.strip()] *)
Definition strip (s : pystr) : pystr := rstrip (lstrip s).

(** ** Regular expressions

    The fragment of [re] syntax that occurs in the program. Every
    repetition in the source ([\d{1,2}], [\s+], [\w+], [\d{4}], [.*])
    applies to one character class, so [Rep] carries a class. All
    quantifiers of the source are greedy. *)

Inductive cset :=
| CAny                      (* .   any character but a newline *)
| CDigit                    (* \d *)
| CSpace                    (* \s *)
| CWord                     (* \w *)
| CLit (c : char)           (* a literal character *)
| COneOf (cs : list char).  (* [...] *)

Inductive regex :=
| Eps
| Chr (c : cset)
| Seq (r1 r2 : regex)
| Alt (r1 r2 : regex)                            (* r1|r2 *)
| Opt (r : regex)                                (* r? *)
| Rep (c : cset) (lo : nat) (hi : option nat)    (* c{lo,hi}, c+ , c* *)
| Bol.                                           (* ^ without re.MULTILINE *)

(** Does the class accept the character. [ic] is [re.IGNORECASE]. *)
Definition cset_accepts (ic : bool) (cs : cset) (ch : char) : bool :=
  let same c := if ic then uni_ci_eq c ch else (c =? ch)%N in
  match cs with
  | CAny => negb (ch =? NL)%N
  | CDigit => uni_isdigit ch
  | CSpace => uni_isspace ch
  | CWord => uni_isalnum ch || (ch =? 95)%N
  | CLit c => same c
  | COneOf l => existsb same l
  end.

Definition hi_allows (hi : option nat) : bool :=
  match hi with
  | Some 0 => false
  | _ => true
  end.

Definition hi_pred (hi : option nat) : option nat := option_map pred hi.

(** Greedy repetition of a class, as the matcher backtracks: the longest
    run first, then one character less at a time, down to [lo]. [i] is the
    index in the subject of the first character of [s]; [k] is the rest of
    the pattern. *)
Fixpoint rep_match {A} (ic : bool) (c : cset) (lo : nat) (hi : option nat)
    (i : nat) (s : pystr) (k : nat -> pystr -> option A) : option A :=
  let stop := if lo =? 0 then k i s else None in
  match s with
  | ch :: s' =>
      if cset_accepts ic c ch && hi_allows hi then
        match rep_match ic c (pred lo) (hi_pred hi) (S i) s' k with
        | Some e => Some e
        | None => stop
        end
      else stop
  | [] => stop
  end.

(** The backtracking matcher: the first successful path in the priority
    order of [re] (left alternative first, optional part first, longest
    repetition first). *)
Fixpoint re_match {A} (ic : bool) (r : regex) (i : nat) (s : pystr)
    (k : nat -> pystr -> option A) : option A :=
  match r with
  | Eps => k i s
  | Chr c =>
      match s with
      | ch :: s' => if cset_accepts ic c ch then k (S i) s' else None
      | [] => None
      end
  | Seq r1 r2 => re_match ic r1 i s (fun j t => re_match ic r2 j t k)
  | Alt r1 r2 =>
      match re_match ic r1 i s k with
      | Some e => Some e
      | None => re_match ic r2 i s k
      end
  | Opt r1 =>
      match re_match ic r1 i s k with
      | Some e => Some e
      | None => k i s
      end
  | Rep c lo hi => rep_match ic c lo hi i s k
  | Bol => if i =? 0 then k i s else None
  end.

(** A match anchored at index [i]: the index one past its last character *)
Definition match_at (ic : bool) (r : regex) (i : nat) (s : pystr) : option nat :=
  re_match ic r i s (fun e _ => Some e).

(** The scan of [re.search] from index [i], where [s] is the subject from
    [i] on: the leftmost index at which the pattern matches. *)
Fixpoint search_from (ic : bool) (r : regex) (i : nat) (s : pystr)
    : option (nat * nat) :=
  match match_at ic r i s with
  | Some e => Some (i, e)
  | None =>
      match s with
      | [] => None
      | _ :: s' => search_from ic r (S i) s'
      end
  end.

(** [re.search(r, s, flags)]: the span [(m.start(), m.end())] *)
Definition re_search (ic : bool) (r : regex) (s : pystr) : option (nat * nat) :=
  search_from ic r 0 s.

(** [re.finditer(r, s, flags)]: the spans of the non-overlapping matches,
    left to right. [skip] counts the characters still inside the previous
    match. (After an empty match the scan moves on by one character; the
    patterns of the registry never match the empty string.) *)
Fixpoint finditer_from (ic : bool) (r : regex) (skip i : nat) (s : pystr)
    : list (nat * nat) :=
  match skip with
  | S skip' =>
      match s with
      | [] => []
      | _ :: s' => finditer_from ic r skip' (S i) s'
      end
  | 0 =>
      match match_at ic r i s with
      | Some e =>
          (i, e) ::
          match s with
          | [] => []
          | _ :: s' => finditer_from ic r (e - i - 1) (S i) s'
          end
      | None =>
          match s with
          | [] => []
          | _ :: s' => finditer_from ic r 0 (S i) s'
          end
      end
  end.

Definition re_finditer (ic : bool) (r : regex) (s : pystr) : list (nat * nat) :=
  finditer_from ic r 0 0 s.

(** Pattern building blocks *)
Fixpoint lit_chars (cs : pystr) : regex :=
  match cs with
  | [] => Eps
  | [c] => Chr (CLit c)
  | c :: cs' => Seq (Chr (CLit c)) (lit_chars cs')
  end.

Definition lit (s : string) : regex := lit_chars (str s).
Definition plus (c : cset) : regex := Rep c 1 None.
Definition star (c : cset) : regex := Rep c 0 None.
Definition between (c : cset) (lo hi : nat) : regex := Rep c lo (Some hi).
Fixpoint seqs (rs : list regex) : regex :=
  match rs with
  | [] => Eps
  | [r] => r
  | r :: rs' => Seq r (seqs rs')
  end.
Fixpoint alts (r : regex) (rs : list regex) : regex :=
  match rs with
  | [] => r
  | r' :: rs' => Alt r (alts r' rs')
  end.

End Text.

(** ** Values of the program *)

(** What [json.load] can return, and so what [self.known_publications]
    can hold: it is only ever assigned [{}] or the result of [json.load].
    An object keeps its members in file order, under distinct keys. *)
Inductive json :=
| JNull
| JBool (b : bool)
| JInt (z : Z)
| JFloat (literal : pystr)
| JStr (s : pystr)
| JArr (items : list json)
| JObj (members : list (pystr * json)).

(** The [json] module, for the two calls of the program:
    [json.dump(obj, f, ensure_ascii=False, indent=2)] writes
    [json_dumps obj]; [json.load(f)] returns [json_loads] of the file's
    text, and raises when that is [None]. *)
Class JsonCodec := {
  json_dumps : json -> pystr;
  json_loads : pystr -> option json
}.

Inductive exn :=
| RequestException            (* session.get: connection error, timeout *)
| HTTPError (status : Z)      (* response.raise_for_status() *)
| ParserError                 (* BeautifulSoup(...) *)
| KeyError (key : pystr)
| TypeError
| OSError
| JSONDecodeError
| UnicodeEncodeError          (* writing a character that UTF-8 does not encode *)
| NameError                   (* a name that is not bound *)
| GmailError.                 (* ...send(...).execute() *)

Inductive outcome (A : Type) :=
| Ok (a : A)
| Raise (e : exn).
Arguments Ok {A} a.
Arguments Raise {A} e.

(** [datetime.now(self.paris_tz)], through the two renderings the program
    reads *)
Record datetime := {
  isoformat : pystr;
  strftime : pystr            (* '%Y-%m-%d %H:%M:%S' *)
}.

(** The element names that [soup.find_all(['h1', 'h2', 'h3', 'h4', 'a'])]
    selects *)
Inductive tag_kind := TagH1 | TagH2 | TagH3 | TagH4 | TagA.

Definition kind_name (k : tag_kind) : pystr :=
  match k with
  | TagH1 => str "h1"
  | TagH2 => str "h2"
  | TagH3 => str "h3"
  | TagH4 => str "h4"
  | TagA => str "a"
  end.

(** An element returned by that call *)
Record Tag := {
  tag_kind_of : tag_kind;
  tag_text : pystr;                   (* element.get_text(strip=True) *)
  tag_parent : option pystr           (* element.parent, as parent.get_text() *)
}.

(** [element.name] *)
Definition tag_name (element : Tag) : pystr := kind_name (tag_kind_of element).

Record Soup := {
  find_all : list Tag;    (* soup.find_all(['h1','h2','h3','h4','a']), document order *)
  get_text : pystr        (* soup.get_text() *)
}.

Record Response := {
  status_code : Z;
  content : pystr
}.

Record PatternEntry := {
  pe_title : pystr;
  pe_pattern : pystr;         (* the pattern as written *)
  pe_regex : regex;           (* the pattern as [re] reads it *)
  pe_priority : pystr
}.

(** [pub_data] *)
Record Publication := {
  pub_id : pystr;
  title : pystr;
  date_text : pystr;
  pattern_matched : pystr;
  priority : pystr;
  extracted_at : pystr;
  source_tag : pystr
}.

(** The body built by [create_notification_html]: the three templates
    with the values they interpolate. *)
Inductive html_part :=
| HtmlHead (count : nat)
| HtmlPublication (priority_class : pystr) (i : nat) (title date category
    priority detected method url : pystr)
| HtmlFoot (sent_at : pystr) (patterns : nat).

Record Mail := {
  mail_subject_count : nat;          (* the subject interpolates the count *)
  mail_from : pystr;
  mail_to : pystr;
  mail_html : list html_part
}.

Inductive logmsg :=
| LoadDone (n : nat) | LoadFailed (e : exn)
| SaveDone | SaveFailed (e : exn)
| Extracted (n : nat) | ExtractFailed (e : exn)
| Checking
| MailSent (to : pystr) | MailFailed (e : exn)
| DailyStart (at_ : pystr)
| NotifyDone | NotifyFailed | NothingToNotify
| TestSending.

Inductive level := INFO | ERROR.

(** What the program does to the outside, in order *)
Inductive event :=
| EvLog (l : level) (m : logmsg)
| EvHttpGet (url : pystr) (timeout : nat)
| EvFileWrite (text : pystr)
| EvGmailSend (m : Mail).

(** The state file [self.data_file] *)
Record Disk := {
  file_content : option pystr;      (* [None]: the file does not exist *)
  read_ok : bool;                   (* opening and decoding it for reading succeeds *)
  write_ok : bool;                  (* opening it for writing succeeds *)
  (** writing a text to the open file: [None] when all of it reaches the
      file, [Some (n, e)] when [e] is raised after the first [n]
      characters (an [OSError] of the device, or the [UnicodeEncodeError]
      of a lone surrogate, which [ensure_ascii=False] leaves in the text
      and UTF-8 does not encode) *)
  write_fault : pystr -> option (nat * exn)
}.

Record World := {
  known_publications : json;        (* self.known_publications *)
  disk : Disk;
  ticks : nat;                      (* calls of datetime.now so far *)
  trace : list event
}.

(** The collaborators *)
Record Env := {
  gmail_to : pystr;                         (* GMAIL_TO *)
  session_get : outcome Response;           (* self.session.get(url, timeout=30) *)
  BeautifulSoup : pystr -> outcome Soup;    (* BeautifulSoup(content, 'html.parser') *)
  gmail_execute : Mail -> outcome unit;     (* users().messages().send(...).execute() *)
  clock : nat -> datetime                   (* the successive values of datetime.now *)
}.

(** ** Programs: state and exceptions *)

Definition prog (A : Type) := World -> outcome A * World.

Definition ret {A} (a : A) : prog A := fun w => (Ok a, w).
Definition raise {A} (e : exn) : prog A := fun w => (Raise e, w).
Definition bind {A B} (m : prog A) (f : A -> prog B) : prog B :=
  fun w => match m w with
           | (Ok a, w') => f a w'
           | (Raise e, w') => (Raise e, w')
           end.
(** [try: m except Exception as e: h e] *)
Definition try_except {A} (m : prog A) (h : exn -> prog A) : prog A :=
  fun w => match m w with
           | (Ok a, w') => (Ok a, w')
           | (Raise e, w') => h e w'
           end.
Definition lift {A} (o : outcome A) : prog A := fun w => (o, w).

Notation "x <- m ;; k" := (bind m (fun x => k))
  (at level 61, m at next level, right associativity).
Notation "m ;;; k" := (bind m (fun _ => k))
  (at level 61, right associativity).

Definition emit (e : event) : prog unit :=
  fun w => (Ok tt, {| known_publications := known_publications w;
                      disk := disk w; ticks := ticks w;
                      trace := trace w ++ [e] |}).
Definition log_info (m : logmsg) : prog unit := emit (EvLog INFO m).
Definition log_error (m : logmsg) : prog unit := emit (EvLog ERROR m).

Definition set_known (v : json) : prog unit :=
  fun w => (Ok tt, {| known_publications := v; disk := disk w;
                      ticks := ticks w; trace := trace w |}).
Definition get_known : prog json := fun w => (Ok (known_publications w), w).
Definition get_disk : prog Disk := fun w => (Ok (disk w), w).
Definition set_file (text : pystr) : prog unit :=
  fun w => (Ok tt, {| known_publications := known_publications w;
                      disk := {| file_content := Some text;
                                 read_ok := read_ok (disk w);
                                 write_ok := write_ok (disk w);
                                 write_fault := write_fault (disk w) |};
                      ticks := ticks w; trace := trace w |}).

(** [datetime.now(self.paris_tz)] *)
Definition now (env : Env) : prog datetime :=
  fun w => (Ok (clock env (ticks w)),
            {| known_publications := known_publications w; disk := disk w;
               ticks := S (ticks w); trace := trace w |}).

(** [len(x)] on a loaded value *)
Definition py_len (v : json) : outcome nat :=
  match v with
  | JStr s => Ok (length s)
  | JArr l => Ok (length l)
  | JObj m => Ok (length m)
  | _ => Raise TypeError
  end.

(** ** The notifier *)

Section Notifier.
Context {U : UnicodeDB} {J : JsonCodec}.
Variable env : Env.

Definition base_url : pystr := str "https://www.banque-france.fr".
Definition publications_url : pystr :=
  base_url ++ str "/en/publications-and-statistics/publications".

(** [self.publication_patterns]; a dict keeps its insertion order, which
    is the order in which [.items()] yields the entries. *)
Definition publication_patterns : list (pystr * PatternEntry) :=
  [ (str "monthly_business_survey",
     {| pe_title := str "Monthly Business Survey";
        pe_pattern := str "monthly business survey";
        pe_regex := lit "monthly business survey";
        pe_priority := str "High" |});
    (str "macroeconomic_projections",
     {| pe_title := str "Macroeconomic Projections";
        pe_pattern := str "macroeconomic projections";
        pe_regex := lit "macroeconomic projections";
        pe_priority := str "High" |});
    (str "financial_stability_report",
     {| pe_title := str "Financial Stability Report";
        pe_pattern := str "financial stability report";
        pe_regex := lit "financial stability report";
        pe_priority := str "Highest" |});
    (str "letter_to_president",
     {| pe_title := str "Letter to the President of the Republic";
        pe_pattern := str "letter to the president";
        pe_regex := lit "letter to the president";
        pe_priority := str "Medium" |});
    (str "balance_of_payments",
     {| pe_title := str "Balance of Payments Report";
        pe_pattern := str "balance of payments.*international investment";
        pe_regex := seqs [lit "balance of payments"; star CAny;
                          lit "international investment"];
        pe_priority := str "Medium" |});
    (str "observatory_payment_security",
     {| pe_title := str "Observatory Security Payment Report";
        pe_pattern := str "observatory.*security.*payment";
        pe_regex := seqs [lit "observatory"; star CAny; lit "security";
                          star CAny; lit "payment"];
        pe_priority := str "Medium" |});
    (str "annual_report",
     {| pe_title := str "Banque de France Annual Report";
        pe_pattern := str "banque de france annual report";
        pe_regex := lit "banque de france annual report";
        pe_priority := str "Medium" |}) ].

(** [d[key]] on a dict given by its items *)
Fixpoint dict_get {V} (d : list (pystr * V)) (key : pystr) : outcome V :=
  match d with
  | [] => Raise (KeyError key)
  | (k, v) :: d' => if pystr_eqb k key then Ok v else dict_get d' key
  end.

(** *** load_data, save_data *)

Definition load_data : prog unit :=
  try_except
    (d <- get_disk ;;
     match file_content d with
     | Some text =>                                   (* os.path.exists *)
         (if read_ok d then ret tt else raise OSError) ;;;   (* open(..., 'r') *)
         match json_loads text with                   (* json.load(f) *)
         | Some v => set_known v
         | None => raise JSONDecodeError
         end
     | None => set_known (JObj [])
     end ;;;
     known <- get_known ;;
     n <- lift (py_len known) ;;
     log_info (LoadDone n))
    (fun e =>
       log_error (LoadFailed e) ;;;
       set_known (JObj [])).

(** [open(..., 'w')] empties the file. [json.dump] then writes the
    serialized store piece by piece; when a write raises, the [with]
    block closes the file with what was written before, and the handler
    logs the error. *)
Definition save_data : prog unit :=
  try_except
    (d <- get_disk ;;
     (if write_ok d then set_file [] else raise OSError) ;;;   (* open(..., 'w') *)
     known <- get_known ;;
     let text := json_dumps known in                  (* json.dump(...) *)
     match write_fault d text with
     | None => set_file text ;;; emit (EvFileWrite text)
     | Some (n, e) =>                                 (* a write raises *)
         set_file (firstn n text) ;;;
         emit (EvFileWrite (firstn n text)) ;;;
         raise e
     end ;;;
     log_info SaveDone)
    (fun e => log_error (SaveFailed e)).

(** *** extract_date_from_context

    In each of the three patterns the parentheses enclose the whole
    expression, so [match.group(1)] is the text of the whole match. *)

Definition ordinal_suffix : regex :=
  Opt (alts (lit "st") [lit "nd"; lit "rd"; lit "th"]).

(** (\d{1,2}(?:st|nd|rd|th)?\s+of\s+\w+\s+\d{4}) *)
Definition day_of_month_year : regex :=
  seqs [between CDigit 1 2; ordinal_suffix; plus CSpace; lit "of";
        plus CSpace; plus CWord; plus CSpace; between CDigit 4 4].

(** (\w+\s+\d{1,2}(?:st|nd|rd|th)?,?\s+\d{4}) *)
Definition month_day_year : regex :=
  seqs [plus CWord; plus CSpace; between CDigit 1 2; ordinal_suffix;
        Opt (lit ","); plus CSpace; between CDigit 4 4].

(** (\d{1,2}[/-]\d{1,2}[/-]\d{4}) *)
Definition numeric_date : regex :=
  seqs [between CDigit 1 2; Chr (COneOf (str "/-")); between CDigit 1 2;
        Chr (COneOf (str "/-")); between CDigit 4 4].

Definition date_patterns : list regex :=
  [day_of_month_year; month_day_year; numeric_date].

Fixpoint first_date (patterns : list regex) (context : pystr) : pystr :=
  match patterns with
  | [] => []
  | pattern :: rest =>
      match re_search true pattern context with
      | Some (s, e) => slice s e context
      | None => first_date rest context
      end
  end.

Definition extract_date_from_context (context : pystr) : pystr :=
  first_date date_patterns context.

(** *** extract_date_near_element *)
Definition extract_date_near_element (element : Tag) : pystr :=
  match tag_parent element with
  | Some text => extract_date_from_context text
  | None => []
  end.

(** *** extract_title_from_context *)

(** ^(Home|Menu|Search|Filter) *)
Definition navigation_words : regex :=
  Seq Bol (alts (lit "Home") [lit "Menu"; lit "Search"; lit "Filter"]).

Definition is_some {A} (o : option A) : bool :=
  match o with Some _ => true | None => false end.

Fixpoint first_title (lines : list pystr) : pystr :=
  match lines with
  | [] => []
  | line :: rest =>
      let cleaned := strip line in
      if (20 <? length cleaned) && (length cleaned <? 200) then
        if negb (is_some (re_search true navigation_words cleaned)) then cleaned
        else first_title rest
      else first_title rest
  end.

Definition extract_title_from_context (context : pystr) : pystr :=
  first_title (split_on NL context).

(** *** extract_publications_from_page *)

(** A non-empty string is true *)
Definition truthy (s : pystr) : bool :=
  match s with [] => false | _ => true end.

(** The inner loop of the structural pass: the entries from [entries] on
    are tried on [text]; the first that matches appends a record and
    breaks. *)
Fixpoint try_patterns (element : Tag) (text : pystr)
    (entries : list (pystr * PatternEntry)) (publications : list Publication)
    : prog (list Publication) :=
  match entries with
  | [] => ret publications
  | (id, pub_config) :: rest =>
      if is_some (re_search true (pe_regex pub_config) text) then
        let date := extract_date_near_element element in
        t <- now env ;;
        ret (publications ++
             [{| pub_id := id; title := text; date_text := date;
                 pattern_matched := pe_pattern pub_config;
                 priority := pe_priority pub_config;
                 extracted_at := isoformat t;
                 source_tag := tag_name element |}])        (* break *)
      else try_patterns element text rest publications
  end.

(** The structural pass: the loop over [soup.find_all([...])] *)
Fixpoint structural_pass (elements : list Tag) (publications : list Publication)
    : prog (list Publication) :=
  match elements with
  | [] => ret publications
  | element :: rest =>
      let text := tag_text element in
      publications' <-
        (if truthy text && (15 <? length text)
         then try_patterns element text publication_patterns publications
         else ret publications) ;;
      structural_pass rest publications'
  end.

(** [any(pub['title'].lower() == title.lower() for pub in publications)] *)
Definition is_duplicate (publications : list Publication) (t : pystr) : bool :=
  existsb (fun pub => pystr_eqb (str_lower (title pub)) (str_lower t)) publications.

(** The loop over the matches of one pattern in the page text *)
Fixpoint scan_matches (page_text : pystr) (id : pystr) (pub_config : PatternEntry)
    (matches : list (nat * nat)) (publications : list Publication)
    : prog (list Publication) :=
  match matches with
  | [] => ret publications
  | (m_start, m_end) :: rest =>
      let context_start := m_start - 200 in                       (* max(0, ...) *)
      let context_end := Nat.min (length page_text) (m_end + 200) in
      let context := slice context_start context_end page_text in
      let t := extract_title_from_context context in
      let date := extract_date_from_context context in
      publications' <-
        (if truthy t && (15 <? length t) then
           if negb (is_duplicate publications t) then
             at_ <- now env ;;
             ret (publications ++
                  [{| pub_id := id; title := t; date_text := date;
                      pattern_matched := pe_pattern pub_config;
                      priority := pe_priority pub_config;
                      extracted_at := isoformat at_;
                      source_tag := str "text_search" |}])
           else ret publications
         else ret publications) ;;
      scan_matches page_text id pub_config rest publications'
  end.

(** The full-text pass: the loop over the registry *)
Fixpoint text_pass (page_text : pystr) (entries : list (pystr * PatternEntry))
    (publications : list Publication) : prog (list Publication) :=
  match entries with
  | [] => ret publications
  | (id, pub_config) :: rest =>
      let matches := re_finditer true (pe_regex pub_config) page_text in
      publications' <- scan_matches page_text id pub_config matches publications ;;
      text_pass page_text rest publications'
  end.

(** [response.raise_for_status()] of requests: an error for the client
    and server error classes, 400 to 599 *)
Definition raise_for_status (response : Response) : prog unit :=
  if ((400 <=? status_code response) && (status_code response <? 600))%Z
  then raise (HTTPError (status_code response))
  else ret tt.

Definition extract_publications_from_page : prog (list Publication) :=
  try_except
    (emit (EvHttpGet publications_url 30) ;;;
     response <- lift (session_get env) ;;
     raise_for_status response ;;;
     soup <- lift (BeautifulSoup env (content response)) ;;
     publications <- structural_pass (find_all soup) [] ;;
     let page_text := get_text soup in
     publications <- text_pass page_text publication_patterns publications ;;
     log_info (Extracted (length publications)) ;;;
     ret publications)
    (fun e =>
       log_error (ExtractFailed e) ;;;
       ret []).

(** *** check_for_new_publications

    The body is one logging call; the method returns [None]. The result
    type is the one its caller expects: [None] or a list of records. *)
Definition check_for_new_publications : prog (option (list Publication)) :=
  log_info Checking ;;;
  ret None.

(** *** create_notification_html *)

(** the literal for an unknown date, used when [date_text] is empty *)
Definition date_unknown : pystr := [26085; 20184; 19981; 26126]%N.

(** The loop [for i, pub in enumerate(matching_publications, 1)] *)
Fixpoint render_publications (i : nat) (pubs : list Publication)
    (html : list html_part) : prog (list html_part) :=
  match pubs with
  | [] => ret html
  | pub :: rest =>
      let priority_class := str "priority-" ++ str_lower (priority pub) in
      let date := if truthy (date_text pub) then date_text pub else date_unknown in
      entry <- lift (dict_get publication_patterns (pub_id pub)) ;;
      render_publications (S i) rest
        (html ++ [HtmlPublication priority_class i (title pub) date
                    (pe_title entry) (priority pub)
                    (firstn 19 (extracted_at pub)) (source_tag pub)
                    publications_url])
  end.

Definition create_notification_html (matching_publications : list Publication)
    : prog (list html_part) :=
  let html := [HtmlHead (length matching_publications)] in
  html <- render_publications 1 matching_publications html ;;
  t <- now env ;;
  ret (html ++ [HtmlFoot (strftime t) (length publication_patterns)]).

(** *** send_gmail_notification

    The module imports [MimeMultipart] from [email.mime.multipart] and
    [MimeText] from [email.mime.text]. These modules define
    [MIMEMultipart] and [MIMEText] and nothing under the names the import
    asks for, so the import fails and binds neither name: evaluating one
    of them raises, and the method stops at [MimeMultipart('alternative')],
    inside its [try]. The lines after it are kept as the source has them;
    the message they would build is the record [Mail]. *)
Definition MimeMultipart : outcome unit := Raise NameError.
Definition MimeText : outcome unit := Raise NameError.

Definition send_gmail_notification (matching_publications : list Publication)
    : prog bool :=
  try_except
    (html_body <- create_notification_html matching_publications ;;
     lift MimeMultipart ;;;                 (* msg = MimeMultipart('alternative') *)
     lift MimeText ;;;                      (* html_part = MimeText(html_body, ...) *)
     let msg := {| mail_subject_count := length matching_publications;
                   mail_from := gmail_to env; mail_to := gmail_to env;
                   mail_html := html_body |} in
     emit (EvGmailSend msg) ;;;
     lift (gmail_execute env msg) ;;;
     log_info (MailSent (gmail_to env)) ;;;
     ret true)
    (fun e =>
       log_error (MailFailed e) ;;;
       ret false).

(** *** run_daily_check *)
Definition run_daily_check : prog unit :=
  paris_now <- now env ;;
  log_info (DailyStart (strftime paris_now)) ;;;
  matching_publications <- check_for_new_publications ;;
  match matching_publications with
  | Some (p :: ps) =>                               (* a non-empty list is true *)
      success <- send_gmail_notification (p :: ps) ;;
      if success then log_info NotifyDone else log_error NotifyFailed
  | _ => log_info NothingToNotify
  end.

(** *** test_notification *)
Definition test_publication (t : datetime) : Publication :=
  {| pub_id := str "test";
     title := [12486; 12473; 12488; 36890; 30693; 32; 45; 32; 66; 100; 70;
               21002; 34892; 29289; 30435; 35222; 12471; 12473; 12486; 12512]%N;
     date_text := [50; 48; 50; 53; 24180; 54; 26376; 50; 51; 26085]%N;
     pattern_matched := str "test";
     priority := str "Test";
     extracted_at := isoformat t;
     source_tag := str "manual_test" |}.

Definition test_notification : prog bool :=
  t <- now env ;;
  let test_publications := [test_publication t] in
  log_info TestSending ;;;
  send_gmail_notification test_publications.

End Notifier.

(** ** The properties, as definitions *)

Section Properties.
Context {U : UnicodeDB}.

(** [s] begins with the word [w], letter case ignored *)
Fixpoint starts_with_ci (w s : pystr) : bool :=
  match w, s with
  | [], _ => true
  | c :: w', ch :: s' => uni_ci_eq c ch && starts_with_ci w' s'
  | _ :: _, [] => false
  end.

Definition begins_with_navigation_word (line : pystr) : bool :=
  existsb (fun w => starts_with_ci (str w) line)
          ["Home"; "Menu"; "Search"; "Filter"]%string.

(** A trimmed line that the Title Extractor accepts: its length is
    strictly between 20 and 200 and it does not begin with a navigation
    word. *)
Definition plausible_title (line : pystr) : bool :=
  (20 <? length line) && (length line <? 200)
  && negb (begins_with_navigation_word line).

(** Does the entry's pattern occur in the text *)
Definition entry_matches (text : pystr) (entry : pystr * PatternEntry) : bool :=
  is_some (re_search true (pe_regex (snd entry)) text).

(** A node whose text the structural pass tests against the registry *)
Definition candidate_node (element : Tag) : bool :=
  truthy (tag_text element) && (15 <? length (tag_text element)).

(** What the structural pass records of a node: nothing, or the
    identifier of one registry entry with the node's text and name *)
Definition node_classification (element : Tag) : list (pystr * pystr * pystr) :=
  if candidate_node element then
    match find (entry_matches (tag_text element)) publication_patterns with
    | Some (id, _) => [(id, tag_text element, tag_name element)]
    | None => []
    end
  else [].

(** Two records whose titles are equal up to letter case *)
Definition same_title_ci (p q : Publication) : Prop :=
  str_lower (title p) = str_lower (title q).

(** The records [added] after [base] all come from the full-text pass,
    and each had, when it was appended, a title that no record before it
    shares up to letter case. *)
Fixpoint fresh_titles (base added : list Publication) : Prop :=
  match added with
  | [] => True
  | r :: rest =>
      source_tag r = str "text_search" /\
      is_duplicate base (title r) = false /\
      fresh_titles (base ++ [r]) rest
  end.

End Properties.

(** What a record shows of the node it was made from *)
Definition record_key (r : Publication) : pystr * pystr * pystr :=
  (pub_id r, title r, source_tag r).

(** [w] after the events [evs] *)
Definition with_events (w : World) (evs : list event) : World :=
  {| known_publications := known_publications w; disk := disk w;
     ticks := ticks w; trace := trace w ++ evs |}.


(** The marks a call of [send_gmail_notification] leaves: the request
    to the Gmail service and the two log lines of the method *)
Definition is_send_mark (e : event) : bool :=
  match e with
  | EvGmailSend _ => true
  | EvLog _ (MailSent _) => true
  | EvLog _ (MailFailed _) => true
  | _ => false
  end.

(** [w'] differs from [w] at most by readings of the clock *)
Definition only_clock_read (w w' : World) : Prop :=
  known_publications w' = known_publications w /\
  disk w' = disk w /\
  trace w' = trace w.

Definition is_send (e : event) : bool :=
  match e with EvGmailSend _ => true | _ => false end.

(** The registry has an entry under the key *)
Definition registry_has (key : pystr) : bool :=
  existsb (fun entry => pystr_eqb (fst entry) key) publication_patterns.

(** A fetch that fails inside [extract_publications_from_page]:
    [session.get] raises, [raise_for_status] raises, or the parser raises *)
Definition fetch_fails (env : Env) : Prop :=
  match session_get env with
  | Raise _ => True
  | Ok response =>
      (400 <= status_code response < 600)%Z \/
      exists e, BeautifulSoup env (content response) = Raise e
  end.

(** The status of a response outside the success class 2xx *)
Definition non_2xx (status : Z) : Prop := ~ (200 <= status < 300)%Z.

(** The collaborators of [env], with a site that answers the request
    with the given status and body *)
Definition answering (env : Env) (status : Z) (body : pystr) : Env :=
  {| gmail_to := gmail_to env;
     session_get := Ok {| status_code := status; content := body |};
     BeautifulSoup := BeautifulSoup env;
     gmail_execute := gmail_execute env;
     clock := clock env |}.

(** The state in which the state file holds [text] *)
Definition with_file (w : World) (text : pystr) : World :=
  {| known_publications := known_publications w;
     disk := {| file_content := Some text;
                read_ok := read_ok (disk w);
                write_ok := write_ok (disk w);
                write_fault := write_fault (disk w) |};
     ticks := ticks w; trace := trace w |}.

(** ** A codec and sample data, to run the model

    [plain_codec] reads and writes JSON documents built from objects,
    arrays, integers, [true], [false], [null] and strings that need no
    escape sequence, in the layout of [indent=2]. As [json.load] does, it
    keeps the last value of a key that an object repeats, at the place of
    the key's first occurrence, and reads no digit after a leading zero. *)

Module PlainJson.

Definition quote : char := 34%N.
Definition backslash : char := 92%N.

Definition is_ws (c : char) : bool :=
  ((c =? 32) || (c =? 9) || (c =? 10) || (c =? 13))%N.
Definition is_digit (c : char) : bool := ((48 <=? c) && (c <=? 57))%N.

Fixpoint indent (level : nat) : pystr :=
  match level with
  | 0 => []
  | S l => 32%N :: 32%N :: indent l
  end.

Fixpoint show_nat_aux (fuel n : nat) (acc : pystr) : pystr :=
  match fuel with
  | 0 => acc
  | S f =>
      let acc' := N.of_nat (48 + n mod 10) :: acc in
      if n / 10 =? 0 then acc' else show_nat_aux f (n / 10) acc'
  end.
Definition show_nat (n : nat) : pystr := show_nat_aux (S n) n [].
Definition show_Z (z : Z) : pystr :=
  if (z <? 0)%Z then 45%N :: show_nat (Z.abs_nat z) else show_nat (Z.abs_nat z).

Definition show_string (s : pystr) : pystr := quote :: s ++ [quote].

Fixpoint sep_by (sep : pystr) (parts : list pystr) : pystr :=
  match parts with
  | [] => []
  | [p] => p
  | p :: ps => p ++ sep ++ sep_by sep ps
  end.

Fixpoint show (level : nat) (v : json) : pystr :=
  let inner := NL :: indent (S level) in
  let close := NL :: indent level in
  match v with
  | JNull => str "null"
  | JBool true => str "true"
  | JBool false => str "false"
  | JInt z => show_Z z
  | JFloat literal => literal
  | JStr s => show_string s
  | JArr [] => str "[]"
  | JArr items =>
      str "[" ++ inner
      ++ sep_by (str "," ++ inner) (map (show (S level)) items)
      ++ close ++ str "]"
  | JObj [] => str "{}"
  | JObj members =>
      str "{" ++ inner
      ++ sep_by (str "," ++ inner)
           (map (fun kv => show_string (fst kv) ++ str ": " ++ show (S level) (snd kv))
                members)
      ++ close ++ str "}"
  end.

Fixpoint read_string (s acc : pystr) : option (pystr * pystr) :=
  match s with
  | [] => None
  | c :: s' =>
      if (c =? quote)%N then Some (rev acc, s')
      else if ((c =? backslash) || (c <? 32))%N then None
      else read_string s' (c :: acc)
  end.

Fixpoint read_digits (s : pystr) (acc : nat) : nat * pystr :=
  match s with
  | c :: s' =>
      if is_digit c then read_digits s' (10 * acc + (N.to_nat c - 48)) else (acc, s)
  | [] => (acc, s)
  end.

(** the integer that starts with the digit [c]: [0] alone, or a digit
    from 1 to 9 and the digits that follow *)
Definition read_int (c : char) (t : pystr) : nat * pystr :=
  if (c =? 48)%N then (0, t) else read_digits (c :: t) 0.

(** [d[key] = v] on the members read so far *)
Fixpoint set_member (key : pystr) (v : json) (members : list (pystr * json))
    : list (pystr * json) :=
  match members with
  | [] => [(key, v)]
  | (k, x) :: rest =>
      if pystr_eqb k key then (k, v) :: rest else (k, x) :: set_member key v rest
  end.

Fixpoint read_value (fuel : nat) (s : pystr) : option (json * pystr) :=
  match fuel with
  | 0 => None
  | S f =>
      match drop_while is_ws s with
      | 110%N :: 117%N :: 108%N :: 108%N :: t => Some (JNull, t)
      | 116%N :: 114%N :: 117%N :: 101%N :: t => Some (JBool true, t)
      | 102%N :: 97%N :: 108%N :: 115%N :: 101%N :: t => Some (JBool false, t)
      | 34%N :: t =>
          match read_string t [] with
          | Some (x, t') => Some (JStr x, t')
          | None => None
          end
      | 91%N :: t =>
          match drop_while is_ws t with
          | 93%N :: t' => Some (JArr [], t')
          | _ => match read_items f t [] with
                 | Some (items, t') => Some (JArr items, t')
                 | None => None
                 end
          end
      | 123%N :: t =>
          match drop_while is_ws t with
          | 125%N :: t' => Some (JObj [], t')
          | _ => match read_members f t [] with
                 | Some (members, t') => Some (JObj members, t')
                 | None => None
                 end
          end
      | 45%N :: c :: t =>
          if is_digit c then
            let (n, t') := read_int c t in Some (JInt (- Z.of_nat n), t')
          else None
      | c :: t =>
          if is_digit c then
            let (n, t') := read_int c t in Some (JInt (Z.of_nat n), t')
          else None
      | [] => None
      end
  end
with read_items (fuel : nat) (s : pystr) (acc : list json)
    : option (list json * pystr) :=
  match fuel with
  | 0 => None
  | S f =>
      match read_value f s with
      | Some (v, t) =>
          match drop_while is_ws t with
          | 44%N :: t' => read_items f t' (acc ++ [v])
          | 93%N :: t' => Some (acc ++ [v], t')
          | _ => None
          end
      | None => None
      end
  end
with read_members (fuel : nat) (s : pystr) (acc : list (pystr * json))
    : option (list (pystr * json) * pystr) :=
  match fuel with
  | 0 => None
  | S f =>
      match drop_while is_ws s with
      | 34%N :: t =>
          match read_string t [] with
          | Some (key, t1) =>
              match drop_while is_ws t1 with
              | 58%N :: t2 =>
                  match read_value f t2 with
                  | Some (v, t3) =>
                      match drop_while is_ws t3 with
                      | 44%N :: t' => read_members f t' (set_member key v acc)
                      | 125%N :: t' => Some (set_member key v acc, t')
                      | _ => None
                      end
                  | None => None
                  end
              | _ => None
              end
          | None => None
          end
      | _ => None
      end
  end.

Definition read (s : pystr) : option json :=
  match read_value (S (length s)) s with
  | Some (v, t) =>
      match drop_while is_ws t with
      | [] => Some v
      | _ => None
      end
  | None => None
  end.

End PlainJson.

Definition plain_codec : JsonCodec := {|
  json_dumps := PlainJson.show 0;
  json_loads := PlainJson.read
|}.

(** A text file opened with [encoding='utf-8']. [json.dump] writes the
    document token by token; the write of a string token that holds a
    surrogate raises, and what was written before that token stays in
    the file. [string_with_surrogate] walks the text and gives the place
    of the opening quote of the first such string: [i] is the place
    reached, [opened] the place of the quote that opened the string the
    walk is in, if it is in one, and [escaped] tells that the character
    before was a backslash inside a string. *)
Definition is_surrogate (c : char) : bool := ((55296 <=? c) && (c <=? 57343))%N.

Fixpoint string_with_surrogate (text : pystr) (i : nat) (opened : option nat)
    (escaped : bool) : option nat :=
  match text with
  | [] => None
  | c :: rest =>
      match opened with
      | None =>
          if is_surrogate c then Some i
          else string_with_surrogate rest (S i)
                 (if (c =? PlainJson.quote)%N then Some i else None) false
      | Some start =>
          if is_surrogate c then Some start
          else if escaped then string_with_surrogate rest (S i) opened false
          else if (c =? PlainJson.backslash)%N
               then string_with_surrogate rest (S i) opened true
          else string_with_surrogate rest (S i)
                 (if (c =? PlainJson.quote)%N then None else opened) false
      end
  end.

Definition utf8_write_fault (text : pystr) : option (nat * exn) :=
  option_map (fun n => (n, UnicodeEncodeError))
             (string_with_surrogate text 0 None false).

Definition sample_time : datetime :=
  {| isoformat := str "2025-06-23T07:00:00.123456+02:00";
     strftime := str "2025-06-23 07:00:00" |}.

(** A first run: no state file yet, nothing logged *)
Definition fresh_world : World :=
  {| known_publications := JObj [];
     disk := {| file_content := None; read_ok := true; write_ok := true;
               write_fault := utf8_write_fault |};
     ticks := 0;
     trace := [] |}.

(** A world whose state file holds [text] *)
Definition world_with_file (text : pystr) (readable : bool) : World :=
  {| known_publications := JObj [];
     disk := {| file_content := Some text; read_ok := readable; write_ok := true;
               write_fault := utf8_write_fault |};
     ticks := 0;
     trace := [] |}.

(** The site answers with [status] and a page that parses to [soup] *)
Definition serving (status : Z) (soup : Soup) : Env :=
  {| gmail_to := str "reader@example.org";
     session_get := Ok {| status_code := status; content := get_text soup |};
     BeautifulSoup := fun _ => Ok soup;
     gmail_execute := fun _ => Ok tt;
     clock := fun _ => sample_time |}.

(** The site cannot be reached *)
Definition unreachable : Env :=
  {| gmail_to := str "reader@example.org";
     session_get := Raise RequestException;
     BeautifulSoup := fun _ => Raise ParserError;
     gmail_execute := fun _ => Ok tt;
     clock := fun _ => sample_time |}.

Definition survey_title : pystr := str "Monthly Business Survey - June 2025".

(** <h2><a href="...">Monthly Business Survey - June 2025</a></h2> :
    the heading and the link inside it carry the same text *)
Definition linked_heading_page : Soup :=
  {| find_all :=
       [ {| tag_kind_of := TagH2; tag_text := survey_title;
            tag_parent := Some survey_title |};
         {| tag_kind_of := TagA; tag_text := survey_title;
            tag_parent := Some survey_title |} ];
     get_text := survey_title |}.

(** Two lines of running text that mention the Monthly Business Survey,
    with no heading or link: only the full-text pass sees them *)
Definition prose_page : Soup :=
  {| find_all := [];
     get_text := str "Results of the Monthly Business Survey for June 2025" ++ [NL]
                 ++ str "See the monthly business survey archive" |}.

(** A window with a numeric date before a written one *)
Definition two_dates : pystr := str "1/2/2025 and 3 of May 2025".

(** The two records the structural pass makes of [linked_heading_page] *)
Definition survey_record (tag : pystr) : Publication :=
  {| pub_id := str "monthly_business_survey";
     title := survey_title;
     date_text := [];
     pattern_matched := str "monthly business survey";
     priority := str "High";
     extracted_at := isoformat sample_time;
     source_tag := tag |}.

Definition stability_title : pystr := str "Financial Stability Report - June 2025".
Definition prose_title : pystr :=
  str "Results of the Monthly Business Survey for June 2025".

(** A heading for one report and, in the running text above it, a
    sentence about another *)
Definition mixed_page : Soup :=
  {| find_all :=
       [ {| tag_kind_of := TagH2; tag_text := stability_title;
            tag_parent := Some stability_title |} ];
     get_text := prose_title ++ [NL] ++ stability_title |}.

Definition stability_record : Publication :=
  {| pub_id := str "financial_stability_report";
     title := stability_title;
     date_text := [];
     pattern_matched := str "financial stability report";
     priority := str "Highest";
     extracted_at := isoformat sample_time;
     source_tag := str "h2" |}.

Definition prose_record : Publication :=
  {| pub_id := str "monthly_business_survey";
     title := prose_title;
     date_text := [];
     pattern_matched := str "monthly business survey";
     priority := str "High";
     extracted_at := isoformat sample_time;
     source_tag := str "text_search" |}.

(** A window of three lines: a navigation line, a short line and a title *)
Definition navigation_line : pystr := str "Home page of the Banque de France site".
Definition title_window : pystr :=
  navigation_line ++ [NL] ++ str "   short" ++ [NL]
  ++ str "  The Monthly Business Survey for June 2025  " ++ [NL] ++ str "next".

(** A store with one entry, and the world that holds it *)
Definition sample_members : list (pystr * json) :=
  [ (str "financial_stability_report",
     JObj [ (str "title", JStr stability_title); (str "seen", JInt 1) ]) ].

Definition seen_world : World :=
  {| known_publications := JObj sample_members;
     disk := {| file_content := None; read_ok := true; write_ok := true;
               write_fault := utf8_write_fault |};
     ticks := 3;
     trace := [] |}.

(** A heading whose text names two reports of the registry *)
Definition joint_title : pystr :=
  str "Financial Stability Report and Monthly Business Survey".
Definition joint_heading : Tag :=
  {| tag_kind_of := TagH3; tag_text := joint_title; tag_parent := Some joint_title |}.

(** <h2>Financial Stability Report - 12th of June 2025</h2> *)
Definition dated_title : pystr := str "Financial Stability Report - 12th of June 2025".
Definition dated_heading_page : Soup :=
  {| find_all :=
       [ {| tag_kind_of := TagH2; tag_text := dated_title;
            tag_parent := Some dated_title |} ];
     get_text := dated_title |}.

Definition sample_record : Publication :=
  {| pub_id := str "annual_report";
     title := str "Banque de France Annual Report 2024";
     date_text := [];
     pattern_matched := str "banque de france annual report";
     priority := str "Medium";
     extracted_at := isoformat sample_time;
     source_tag := str "h2" |}.

(** The same site an hour later: the same answers, another clock *)
Definition later_time : datetime :=
  {| isoformat := str "2025-06-23T08:00:00.654321+02:00";
     strftime := str "2025-06-23 08:00:00" |}.

Definition serving_later (status : Z) (soup : Soup) : Env :=
  {| gmail_to := str "reader@example.org";
     session_get := Ok {| status_code := status; content := get_text soup |};
     BeautifulSoup := fun _ => Ok soup;
     gmail_execute := fun _ => Raise GmailError;
     clock := fun _ => later_time |}.

(** A world whose state file holds [text] and cannot be written *)
Definition read_only_world (text : pystr) : World :=
  {| known_publications := JObj sample_members;
     disk := {| file_content := Some text; read_ok := true; write_ok := false;
               write_fault := utf8_write_fault |};
     ticks := 0;
     trace := [] |}.

(** A store whose one entry is a string made of a lone surrogate, as
    [json.load] reads it from the escape sequence of U+D800, with a state
    file that can be written and read *)
Definition surrogate_members : list (pystr * json) :=
  [ (str "note", JStr [55296%N]) ].

Definition surrogate_world : World :=
  {| known_publications := JObj surrogate_members;
     disk := {| file_content := None; read_ok := true; write_ok := true;
               write_fault := utf8_write_fault |};
     ticks := 0;
     trace := [] |}.

(** ** Records and where they come from *)

Section Provenance.
Context {U : UnicodeDB}.
Variable env : Env.

(** [w] after one reading of the clock *)
Definition tick (w : World) : World :=
  {| known_publications := known_publications w; disk := disk w;
     ticks := S (ticks w); trace := trace w |}.

(** The record the structural pass makes of a node whose text is [text],
    under a registry entry, at the clock reading number [t] *)
Definition node_record (element : Tag) (text : pystr)
    (entry : pystr * PatternEntry) (t : nat) : Publication :=
  {| pub_id := fst entry; title := text;
     date_text := extract_date_near_element element;
     pattern_matched := pe_pattern (snd entry);
     priority := pe_priority (snd entry);
     extracted_at := isoformat (clock env t);
     source_tag := tag_name element |}.

(** The window of the page text around a match: 200 characters on each
    side, cut at the ends of the text *)
Definition context_window (page_text : pystr) (m_start m_end : nat) : pystr :=
  slice (m_start - 200) (Nat.min (length page_text) (m_end + 200)) page_text.

(** The record the full-text pass makes of a match window, under a
    registry entry, at the clock reading number [t] *)
Definition window_record (window : pystr) (entry : pystr * PatternEntry)
    (t : nat) : Publication :=
  {| pub_id := fst entry; title := extract_title_from_context window;
     date_text := extract_date_from_context window;
     pattern_matched := pe_pattern (snd entry);
     priority := pe_priority (snd entry);
     extracted_at := isoformat (clock env t);
     source_tag := str "text_search" |}.

(** [r] is the record of a candidate node of [elements] under the first
    registry entry that matches the node's text *)
Definition from_structural_pass (elements : list Tag) (t : nat)
    (r : Publication) : Prop :=
  exists element entry,
    In element elements /\
    candidate_node element = true /\
    find (entry_matches (tag_text element)) publication_patterns = Some entry /\
    r = node_record element (tag_text element) entry t.

(** [r] is the record of the window around a match of a registry pattern
    in the page text, with a title longer than 15 characters *)
Definition from_text_pass (page_text : pystr) (t : nat) (r : Publication) : Prop :=
  exists entry m_start m_end,
    In entry publication_patterns /\
    In (m_start, m_end) (re_finditer true (pe_regex (snd entry)) page_text) /\
    15 < length (extract_title_from_context
                   (context_window page_text m_start m_end)) /\
    r = window_record (context_window page_text m_start m_end) entry t.

Definition from_page (soup : Soup) (t : nat) (r : Publication) : Prop :=
  from_structural_pass (find_all soup) t r \/ from_text_pass (get_text soup) t r.

(** [r] comes from the page that the site serves *)
Definition served (t : nat) (r : Publication) : Prop :=
  exists response soup,
    session_get env = Ok response /\
    BeautifulSoup env (content response) = Ok soup /\
    from_page soup t r.

(** Each record of the list satisfies [P] at its own clock reading:
    the first at [t], the next at [t + 1], and so on *)
Fixpoint stamped (P : nat -> Publication -> Prop) (t : nat)
    (l : list Publication) : Prop :=
  match l with
  | [] => True
  | r :: l' => P t r /\ stamped P (S t) l'
  end.

(** A record as the Notifier needs it: a title longer than the threshold
    and the identifier, priority and pattern of one registry entry *)
Definition well_formed_record (r : Publication) : Prop :=
  15 < length (title r) /\
  exists entry,
    dict_get publication_patterns (pub_id r) = Ok entry /\
    priority r = pe_priority entry /\
    pattern_matched r = pe_pattern entry.

End Provenance.

(** A record without its time stamp *)
Definition record_content (r : Publication)
    : pystr * pystr * pystr * pystr * pystr * pystr :=
  (pub_id r, title r, date_text r, pattern_matched r, priority r, source_tag r).

(** The block of the message for the record number [i] *)
Definition publication_block {U : UnicodeDB} (i : nat) (pub : Publication)
    (entry : PatternEntry) : html_part :=
  HtmlPublication (str "priority-" ++ str_lower (priority pub)) i (title pub)
    (if truthy (date_text pub) then date_text pub else date_unknown)
    (pe_title entry) (priority pub) (firstn 19 (extracted_at pub))
    (source_tag pub) publications_url.

(** The list a method returned ([[]] if it raised) *)
Definition records_of (x : outcome (list Publication) * World) : list Publication :=
  match fst x with
  | Ok l => l
  | Raise _ => []
  end.

(** The least number of characters a match of the pattern spans *)
Fixpoint min_length (r : regex) : nat :=
  match r with
  | Eps => 0
  | Chr _ => 1
  | Seq r1 r2 => min_length r1 + min_length r2
  | Alt r1 r2 => Nat.min (min_length r1) (min_length r2)
  | Opt _ => 0
  | Rep _ lo _ => lo
  | Bol => 0
  end.

(** [piece] is a run of consecutive characters of [s] *)
Definition piece_of (piece s : pystr) : Prop :=
  exists before after, s = before ++ piece ++ after.

(** * Facts about the matcher *)

Section MatcherFacts.
Context {U : UnicodeDB}.

Lemma skipn_add (n m : nat) (s : pystr) : skipn m (skipn n s) = skipn (n + m) s.
Proof.
  revert s; induction n as [|n IH]; intros s; [reflexivity|].
  destruct s as [|c s]; simpl; [now rewrite skipn_nil | apply IH].
Qed.

(** A successful run of a repetition hands the rest of the subject, some
    characters further, to the continuation. *)
Lemma rep_match_sound A ic c lo hi i s (k : nat -> pystr -> option A) x :
  rep_match ic c lo hi i s k = Some x ->
  exists n, n <= length s /\ k (i + n) (skipn n s) = Some x.
Proof.
  revert lo hi i.
  assert (Hstop : forall lo i t,
             (if lo =? 0 then k i t else None) = Some x ->
             exists n, n <= length t /\ k (i + n) (skipn n t) = Some x).
  { intros lo i t H. destruct (lo =? 0); [|discriminate].
    exists 0. rewrite Nat.add_0_r. split; [lia | exact H]. }
  induction s as [|ch s IH]; intros lo hi i; simpl.
  - apply Hstop.
  - destruct (cset_accepts ic c ch && hi_allows hi); [|apply Hstop].
    destruct (rep_match ic c (pred lo) (hi_pred hi) (S i) s k) eqn:E.
    + intros [= ->]. apply IH in E as (n & Hn & Hk).
      exists (S n). split; [lia|]. simpl.
      now replace (i + S n) with (S i + n) by lia.
    + apply Hstop.
Qed.

Lemma re_match_sound A ic r : forall i s (k : nat -> pystr -> option A) x,
  re_match ic r i s k = Some x ->
  exists n, n <= length s /\ k (i + n) (skipn n s) = Some x.
Proof.
  assert (Hzero : forall i s (k : nat -> pystr -> option A) x,
             k i s = Some x ->
             exists n, n <= length s /\ k (i + n) (skipn n s) = Some x).
  { intros i s k x H. exists 0. rewrite Nat.add_0_r. split; [lia | exact H]. }
  induction r as [|c|r1 IH1 r2 IH2|r1 IH1 r2 IH2|r1 IH1|c lo hi|];
    intros i s k x; simpl.
  - apply Hzero.
  - destruct s as [|ch s]; [discriminate|].
    destruct (cset_accepts ic c ch); [|discriminate].
    intros H. exists 1. split; [simpl; lia|].
    simpl. now replace (i + 1) with (S i) by lia.
  - intros H. apply IH1 in H as (n1 & Hn1 & H).
    apply IH2 in H as (n2 & Hn2 & H).
    rewrite length_skipn in Hn2. rewrite skipn_add in H.
    exists (n1 + n2). split; [lia|].
    now replace (i + (n1 + n2)) with (i + n1 + n2) by lia.
  - destruct (re_match ic r1 i s k) eqn:E.
    + intros [= ->]. now apply IH1.
    + apply IH2.
  - destruct (re_match ic r1 i s k) eqn:E.
    + intros [= ->]. now apply IH1.
    + apply Hzero.
  - apply rep_match_sound.
  - destruct (i =? 0); [apply Hzero | discriminate].
Qed.

(** A match anchored at [i] ends inside the subject. *)
Lemma match_at_bounds ic r i s e :
  match_at ic r i s = Some e -> i <= e <= i + length s.
Proof.
  intros H. apply re_match_sound in H as (n & Hn & [= <-]). lia.
Qed.

Lemma search_from_spec ic r : forall s i b e,
  search_from ic r i s = Some (b, e) ->
  exists n, b = i + n /\ n <= length s /\
            match_at ic r b (skipn n s) = Some e /\
            forall j, j < n -> match_at ic r (i + j) (skipn j s) = None.
Proof.
  induction s as [|c s IH]; intros i b e; simpl.
  - destruct (match_at ic r i []) eqn:E; [|discriminate].
    intros [= <- <-]. exists 0. rewrite Nat.add_0_r. repeat split; auto; lia.
  - destruct (match_at ic r i (c :: s)) eqn:E.
    + intros [= <- <-]. exists 0. rewrite Nat.add_0_r. repeat split; auto; lia.
    + intros H. apply IH in H as (n & -> & Hn & Hm & Hbefore).
      exists (S n). repeat split; [lia | lia | |].
      * simpl. now replace (i + S n) with (S i + n) by lia.
      * intros [|j] Hj; [now rewrite Nat.add_0_r|].
        simpl. replace (i + S j) with (S i + j) by lia. apply Hbefore. lia.
Qed.

Lemma search_from_none ic r : forall s i,
  search_from ic r i s = None ->
  forall j, j <= length s -> match_at ic r (i + j) (skipn j s) = None.
Proof.
  induction s as [|c s IH]; intros i; simpl.
  - destruct (match_at ic r i []) eqn:E; [discriminate|].
    intros _ j Hj. assert (j = 0) as -> by lia. now rewrite Nat.add_0_r.
  - destruct (match_at ic r i (c :: s)) eqn:E; [discriminate|].
    intros H [|j] Hj; [now rewrite Nat.add_0_r|].
    simpl. replace (i + S j) with (S i + j) by lia. apply IH; [exact H | lia].
Qed.

(** [re.search] returns the leftmost match: a span inside the subject, at
    whose start the pattern matches, with no match starting earlier. *)
Lemma re_search_spec ic r s b e :
  re_search ic r s = Some (b, e) ->
  b <= e <= length s /\
  match_at ic r b (skipn b s) = Some e /\
  forall j, j < b -> match_at ic r j (skipn j s) = None.
Proof.
  intros H. apply search_from_spec in H as (n & -> & Hn & Hm & Hbefore).
  simpl in *. pose proof (match_at_bounds _ _ _ _ Hm) as Hb.
  rewrite length_skipn in Hb. repeat split; auto; lia.
Qed.

(** [re.search] fails only when the pattern matches at no index. *)
Lemma re_search_none ic r s :
  re_search ic r s = None ->
  forall j, j <= length s -> match_at ic r j (skipn j s) = None.
Proof. intros H j Hj. now apply search_from_none with (i := 0) (j := j) in H. Qed.

(** A literal word under [re.IGNORECASE] *)
Lemma lit_chars_match A (w : pystr) : forall i s (k : nat -> pystr -> option A),
  re_match true (lit_chars w) i s k =
  if starts_with_ci w s then k (i + length w) (skipn (length w) s) else None.
Proof.
  induction w as [|c w IH]; intros i s k.
  - simpl. now rewrite Nat.add_0_r.
  - assert (Hone : forall (k' : nat -> pystr -> option A),
               re_match true (Chr (CLit c)) i s k' =
               match s with
               | ch :: s' => if uni_ci_eq c ch then k' (S i) s' else None
               | [] => None
               end) by reflexivity.
    destruct w as [|c' w].
    + change (lit_chars [c]) with (Chr (CLit c)). rewrite Hone.
      destruct s as [|ch s]; [reflexivity|]. simpl.
      destruct (uni_ci_eq c ch); simpl; [|reflexivity].
      now replace (i + 1) with (S i) by lia.
    + remember (c' :: w) as w' eqn:Hw.
      assert (lit_chars (c :: w') = Seq (Chr (CLit c)) (lit_chars w')) as ->
        by (subst w'; reflexivity).
      simpl. destruct s as [|ch s]; [reflexivity|].
      destruct (uni_ci_eq c ch); [|reflexivity].
      rewrite IH. simpl.
      destruct (starts_with_ci w' s); [|reflexivity].
      now replace (i + S (length w')) with (S i + length w') by lia.
Qed.

(** An anchored pattern cannot match past the start of the subject. *)
Lemma search_from_bol_later r : forall s i,
  search_from true (Seq Bol r) (S i) s = None.
Proof.
  induction s as [|c s IH]; intros i; simpl; [reflexivity | apply IH].
Qed.

(** The navigation pattern finds a match exactly in the lines that begin
    with one of the four words, letter case ignored. *)
Lemma navigation_words_search (line : pystr) :
  is_some (re_search true navigation_words line) = begins_with_navigation_word line.
Proof.
  unfold re_search, navigation_words, begins_with_navigation_word, lit.
  assert (Hat : match_at true
            (Seq Bol (alts (lit_chars (str "Home"))
                           [lit_chars (str "Menu"); lit_chars (str "Search");
                            lit_chars (str "Filter")])) 0 line
          = if starts_with_ci (str "Home") line then Some 4
            else if starts_with_ci (str "Menu") line then Some 4
            else if starts_with_ci (str "Search") line then Some 6
            else if starts_with_ci (str "Filter") line then Some 6
            else None).
  { unfold match_at. cbn [re_match alts Nat.eqb].
    rewrite !lit_chars_match.
    destruct (starts_with_ci (str "Home") line); [reflexivity|].
    destruct (starts_with_ci (str "Menu") line); [reflexivity|].
    destruct (starts_with_ci (str "Search") line); [reflexivity|].
    destruct (starts_with_ci (str "Filter") line); reflexivity. }
  destruct line as [|c line]; cbn [search_from existsb]; rewrite Hat;
    try rewrite search_from_bol_later;
    repeat match goal with
           | |- context [starts_with_ci ?w ?s] => destruct (starts_with_ci w s)
           end; reflexivity.
Qed.

Lemma lit_chars_consumes (w : pystr) i s e :
  w <> [] -> match_at true (lit_chars w) i s = Some e -> i < e.
Proof.
  intros Hw. unfold match_at. rewrite lit_chars_match.
  destruct (starts_with_ci w s); [|discriminate].
  intros [= <-]. destruct w; [congruence | simpl; lia].
Qed.

Lemma lit_chars_then_consumes (w : pystr) r i s e :
  w <> [] -> match_at true (Seq (lit_chars w) r) i s = Some e -> i < e.
Proof.
  intros Hw. unfold match_at. cbn [re_match]. rewrite lit_chars_match.
  destruct (starts_with_ci w s); [|discriminate].
  intros H. apply re_match_sound in H as (n & _ & [= <-]).
  destruct w; [congruence | simpl; lia].
Qed.

(** Every pattern of the registry begins with a literal word, so none of
    them matches the empty string: each match that [re.finditer] reports
    on the page text spans at least one character. *)
Lemma registry_patterns_consume :
  Forall (fun entry => forall i s e,
              match_at true (pe_regex (snd entry)) i s = Some e -> i < e)
         publication_patterns.
Proof.
  unfold publication_patterns.
  repeat constructor; cbn [snd pe_regex]; unfold lit, seqs; intros i s e;
    (apply lit_chars_consumes || apply lit_chars_then_consumes);
    vm_compute; discriminate.
Qed.

End MatcherFacts.

(** * The Date Extractor and the Title Extractor *)

Section Extractors.
Context {U : UnicodeDB}.

Lemma first_date_priority context : forall patterns before p after s e,
  patterns = before ++ p :: after ->
  Forall (fun q => re_search true q context = None) before ->
  re_search true p context = Some (s, e) ->
  first_date patterns context = slice s e context.
Proof.
  intros patterns before; revert patterns.
  induction before as [|q before IH]; intros patterns p after s e -> Hnone Hp.
  - simpl. now rewrite Hp.
  - inversion Hnone as [|? ? Hq Hrest]; subst. simpl. rewrite Hq.
    now apply IH with (p := p) (after := after).
Qed.

Lemma first_date_none context : forall patterns,
  Forall (fun q => re_search true q context = None) patterns ->
  first_date patterns context = [].
Proof.
  induction patterns as [|q patterns IH]; intros H; [reflexivity|].
  inversion H as [|? ? Hq Hrest]; subst. simpl. rewrite Hq. now apply IH.
Qed.

(** The loop of [extract_title_from_context] returns the first trimmed
    line that is a plausible title. *)
Lemma first_title_find (lines : list pystr) :
  first_title lines =
  match find plausible_title (map strip lines) with
  | Some line => line
  | None => []
  end.
Proof.
  induction lines as [|line lines IH]; [reflexivity|].
  simpl. unfold plausible_title at 1. rewrite <- navigation_words_search.
  destruct ((20 <? length (strip line)) && (length (strip line) <? 200));
    simpl; [|exact IH].
  destruct (is_some (re_search true navigation_words (strip line)));
    simpl; [exact IH | reflexivity].
Qed.

Lemma find_first_split {A} (f : A -> bool) : forall l before x after,
  l = before ++ x :: after ->
  Forall (fun y => f y = false) before ->
  f x = true ->
  find f l = Some x.
Proof.
  intros l before; revert l.
  induction before as [|y before IH]; intros l x after -> Hb Hx; simpl.
  - now rewrite Hx.
  - inversion Hb as [|? ? Hy Hrest]; subst. rewrite Hy. now apply IH with (after := after).
Qed.

Lemma find_none_all {A} (f : A -> bool) : forall l,
  Forall (fun y => f y = false) l -> find f l = None.
Proof.
  induction l as [|y l IH]; intros H; [reflexivity|].
  inversion H as [|? ? Hy Hrest]; subst. simpl. rewrite Hy. now apply IH.
Qed.

(** What [find] returns is the first element that passes the test. *)
Lemma find_some_split {A} (f : A -> bool) : forall l x,
  find f l = Some x ->
  exists before after,
    l = before ++ x :: after /\ f x = true /\
    Forall (fun y => f y = false) before.
Proof.
  induction l as [|y l IH]; intros x; simpl; [discriminate|].
  destruct (f y) eqn:Hy.
  - intros [= ->]. exists [], l. repeat split; auto.
  - intros H. apply IH in H as (before & after & -> & Hx & Hb).
    exists (y :: before), after. repeat split; auto.
Qed.

(** C7. The Title Extractor returns the first line of the window that,
    once trimmed, has a length strictly between 20 and 200 and does not
    begin with Home, Menu, Search or Filter in any letter case; lines
    before it that are too short, too long or begin with such a word are
    passed over; when no line qualifies the result is the empty string;
    and a non-empty result is always such a line. *)
Theorem title_extractor_first_plausible_line (context : pystr) :
  let lines := map strip (split_on NL context) in
  (forall before line after,
      lines = before ++ line :: after ->
      Forall (fun l => plausible_title l = false) before ->
      plausible_title line = true ->
      extract_title_from_context context = line) /\
  (Forall (fun l => plausible_title l = false) lines ->
   extract_title_from_context context = []) /\
  (extract_title_from_context context <> [] ->
   In (extract_title_from_context context) lines /\
   20 < length (extract_title_from_context context) < 200 /\
   begins_with_navigation_word (extract_title_from_context context) = false).
Proof.
  intros lines. unfold extract_title_from_context.
  rewrite first_title_find. fold lines. repeat split.
  - intros before line after Hsplit Hb Hline.
    now rewrite find_first_split with (before := before) (x := line) (after := after).
  - intros Hnone. now rewrite find_none_all.
  - destruct (find plausible_title lines) as [line|] eqn:E; [|congruence].
    apply find_some in E. tauto.
  - destruct (find plausible_title lines) as [line|] eqn:E; [|congruence].
    apply find_some in E as [_ E]. unfold plausible_title in E.
    apply andb_prop in E as [E _]. apply andb_prop in E as [E _].
    apply Nat.ltb_lt in E. exact E.
  - destruct (find plausible_title lines) as [line|] eqn:E; [|congruence].
    apply find_some in E as [_ E]. unfold plausible_title in E.
    apply andb_prop in E as [E _]. apply andb_prop in E as [_ E].
    apply Nat.ltb_lt in E. exact E.
  - destruct (find plausible_title lines) as [line|] eqn:E; [|congruence].
    apply find_some in E as [_ E]. unfold plausible_title in E.
    apply andb_prop in E as [_ E]. now apply negb_true_iff in E.
Qed.

(** C4, as the code has it. The Date Extractor tries the three patterns
    in list order and returns the text of the leftmost match of the first
    pattern that matches anywhere in the window, wherever the other
    patterns would match; that text is a piece of the window. When no
    pattern matches, the result is the empty string. *)
Theorem date_extractor_priority_order (context : pystr) :
  (forall before p after s e,
      date_patterns = before ++ p :: after ->
      Forall (fun q => re_search true q context = None) before ->
      re_search true p context = Some (s, e) ->
      extract_date_from_context context = slice s e context /\
      s <= e <= length context /\
      match_at true p s (skipn s context) = Some e /\
      forall j, j < s -> match_at true p j (skipn j context) = None) /\
  (Forall (fun q => re_search true q context = None) date_patterns ->
   extract_date_from_context context = []).
Proof.
  split.
  - intros before p after s e Hsplit Hnone Hp. split.
    + now apply first_date_priority with (before := before) (p := p) (after := after).
    + now apply re_search_spec.
  - apply first_date_none.
Qed.

End Extractors.

(** * The Publication Extractor *)

Section Extraction.
Context {U : UnicodeDB}.
Variable env : Env.

Lemma only_clock_read_trans w1 w2 w3 :
  only_clock_read w1 w2 -> only_clock_read w2 w3 -> only_clock_read w1 w3.
Proof.
  intros (K1 & D1 & T1) (K2 & D2 & T2). repeat split; congruence.
Qed.

(** The inner loop appends at most one record: the one of the first entry,
    in the order of the list, whose pattern occurs in the text. *)
Lemma try_patterns_spec element text : forall entries publications w,
  exists recs w',
    try_patterns env element text entries publications w
      = (Ok (publications ++ recs), w') /\
    only_clock_read w w' /\
    map record_key recs =
      match find (entry_matches text) entries with
      | Some (id, _) => [(id, text, tag_name element)]
      | None => []
      end.
Proof.
  induction entries as [|[id pub_config] rest IH]; intros publications w.
  - exists [], w. simpl. rewrite app_nil_r. repeat split.
  - simpl. unfold entry_matches at 1. simpl.
    destruct (is_some (re_search true (pe_regex pub_config) text)).
    + eexists [_], _. unfold bind, ret, now. simpl. repeat split.
    + apply IH.
Qed.

(** The structural pass appends, node by node in document order, what
    [node_classification] says of each node. *)
Lemma structural_pass_spec : forall elements publications w,
  exists recs w',
    structural_pass env elements publications w
      = (Ok (publications ++ recs), w') /\
    only_clock_read w w' /\
    map record_key recs = flat_map node_classification elements.
Proof.
  induction elements as [|element rest IH]; intros publications w.
  - exists [], w. simpl. rewrite app_nil_r. repeat split.
  - cbn [structural_pass flat_map]. unfold bind, node_classification, candidate_node.
    destruct (truthy (tag_text element) && (15 <? length (tag_text element))).
    + destruct (try_patterns_spec element (tag_text element)
                  publication_patterns publications w)
        as (recs1 & w1 & -> & Hw1 & Hk1).
      destruct (IH (publications ++ recs1) w1) as (recs2 & w2 & -> & Hw2 & Hk2).
      exists (recs1 ++ recs2), w2. rewrite app_assoc. repeat split.
      * now apply only_clock_read_trans with w1.
      * apply (only_clock_read_trans Hw1 Hw2).
      * apply (only_clock_read_trans Hw1 Hw2).
      * rewrite map_app, Hk1, Hk2. reflexivity.
    + unfold ret. simpl. apply IH.
Qed.

Lemma node_classification_at_most_one element :
  length (node_classification element) <= 1.
Proof.
  unfold node_classification.
  destruct (candidate_node element); [|simpl; lia].
  destruct (find (entry_matches (tag_text element)) publication_patterns)
    as [[id cfg]|]; simpl; lia.
Qed.

Lemma node_classification_first element id text name :
  In (id, text, name) (node_classification element) ->
  text = tag_text element /\ name = tag_name element /\
  exists before cfg after,
    publication_patterns = before ++ (id, cfg) :: after /\
    entry_matches (tag_text element) (id, cfg) = true /\
    Forall (fun entry => entry_matches (tag_text element) entry = false) before.
Proof.
  unfold node_classification. destruct (candidate_node element); [|intros []].
  destruct (find (entry_matches (tag_text element)) publication_patterns)
    as [[id' cfg]|] eqn:E; [|intros []].
  intros [[= <- <- <-]|[]]. repeat split.
  apply find_some_split in E as (before & after & Hsplit & Hm & Hb).
  now exists before, cfg, after.
Qed.

(** C6. In the structural pass every node yields at most one record. The
    records are, in document order, those of the candidate nodes for
    which some registry entry matches, and the record of a node carries
    the identifier of the first entry in table order whose pattern occurs
    in the node's text: no entry before it matches, and no record is made
    for an entry after it. *)
Theorem structural_pass_first_match_wins (elements : list Tag) (w : World) :
  exists recs w',
    structural_pass env elements [] w = (Ok recs, w') /\
    map record_key recs = flat_map node_classification elements /\
    (forall element, length (node_classification element) <= 1) /\
    (forall element id text name,
        In (id, text, name) (node_classification element) ->
        text = tag_text element /\ name = tag_name element /\
        exists before cfg after,
          publication_patterns = before ++ (id, cfg) :: after /\
          entry_matches (tag_text element) (id, cfg) = true /\
          Forall (fun entry => entry_matches (tag_text element) entry = false)
                 before).
Proof.
  destruct (structural_pass_spec elements [] w) as (recs & w' & Hrun & _ & Hk).
  exists recs, w'. split; [exact Hrun|]. split; [exact Hk|].
  split; [apply node_classification_at_most_one|].
  intros element id text name Hin. now apply node_classification_first.
Qed.

(** ** The full-text pass *)

Lemma fresh_titles_app : forall added1 base added2,
  fresh_titles base added1 ->
  fresh_titles (base ++ added1) added2 ->
  fresh_titles base (added1 ++ added2).
Proof.
  induction added1 as [|r added1 IH]; intros base added2 H1 H2; simpl in *.
  - now rewrite app_nil_r in H2.
  - destruct H1 as (Htag & Hdup & H1). repeat split; auto.
    apply IH; [exact H1|]. now rewrite <- app_assoc.
Qed.

Lemma fresh_titles_split : forall added base pre r post,
  fresh_titles base added ->
  added = pre ++ r :: post ->
  source_tag r = str "text_search" /\
  is_duplicate (base ++ pre) (title r) = false.
Proof.
  induction added as [|x added IH]; intros base pre r post H Hsplit.
  - now destruct pre.
  - destruct H as (Htag & Hdup & H). destruct pre as [|y pre]; simpl in Hsplit.
    + injection Hsplit as <- _. now rewrite app_nil_r.
    + injection Hsplit as <- Hsplit.
      destruct (IH _ _ _ _ H Hsplit) as [Htag' Hdup']. split; [exact Htag'|].
      now rewrite <- app_assoc in Hdup'.
Qed.

Lemma is_duplicate_false publications t :
  is_duplicate publications t = false ->
  forall p, In p publications -> str_lower (title p) <> str_lower t.
Proof.
  unfold is_duplicate. intros H p Hp Heq.
  assert (existsb (fun pub => pystr_eqb (str_lower (title pub)) (str_lower t))
                  publications = true); [|congruence].
  apply existsb_exists. exists p. split; [exact Hp|].
  unfold pystr_eqb. now destruct (pystr_eq_dec _ _).
Qed.

(** The loop over the matches of one pattern appends only records whose
    title no earlier record shares. *)
Lemma scan_matches_spec page_text id pub_config : forall found publications w,
  exists added w',
    scan_matches env page_text id pub_config found publications w
      = (Ok (publications ++ added), w') /\
    only_clock_read w w' /\
    fresh_titles publications added.
Proof.
  induction found as [|[m_start m_end] rest IH]; intros publications w.
  - exists [], w. simpl. rewrite app_nil_r. repeat split.
  - cbn [scan_matches]. unfold bind.
    set (context := slice (m_start - 200)
                          (Nat.min (length page_text) (m_end + 200)) page_text).
    set (t := extract_title_from_context context).
    destruct (truthy t && (15 <? length t));
      [destruct (is_duplicate publications t) eqn:Hdup|]; cbn [negb].
    + unfold ret. apply IH.
    + unfold ret, now.
      match goal with
      | |- context [scan_matches _ _ _ _ _ (publications ++ [?r]) ?w1] =>
          destruct (IH (publications ++ [r]) w1) as (added & w' & -> & Hw & Hf);
          exists (r :: added), w'
      end.
      rewrite <- app_assoc. repeat split; try apply Hw; auto.
    + unfold ret. apply IH.
Qed.

Lemma text_pass_spec page_text : forall entries publications w,
  exists added w',
    text_pass env page_text entries publications w
      = (Ok (publications ++ added), w') /\
    only_clock_read w w' /\
    fresh_titles publications added.
Proof.
  induction entries as [|[id pub_config] rest IH]; intros publications w.
  - exists [], w. simpl. rewrite app_nil_r. repeat split.
  - cbn [text_pass]. unfold bind.
    destruct (scan_matches_spec page_text id pub_config
                (re_finditer true (pe_regex pub_config) page_text) publications w)
      as (added1 & w1 & -> & Hw1 & Hf1).
    destruct (IH (publications ++ added1) w1) as (added2 & w2 & -> & Hw2 & Hf2).
    exists (added1 ++ added2), w2. rewrite app_assoc. repeat split.
    + now apply only_clock_read_trans with w1.
    + apply (only_clock_read_trans Hw1 Hw2).
    + apply (only_clock_read_trans Hw1 Hw2).
    + now apply fresh_titles_app.
Qed.

(** ** extract_publications_from_page as a whole *)

Lemma with_events_app w evs1 evs2 :
  with_events (with_events w evs1) evs2 = with_events w (evs1 ++ evs2).
Proof. unfold with_events. simpl. now rewrite <- app_assoc. Qed.

Lemma emit_with_events e w : emit e w = (Ok tt, with_events w [e]).
Proof. reflexivity. Qed.

(** The two ways the method ends. When the fetch fails the handler logs
    the error and returns the empty list. Otherwise the result is the
    records of the structural pass followed by those of the full-text
    pass. *)
Lemma extract_outcome (w : World) :
  (fetch_fails env /\
   exists e,
     extract_publications_from_page env w
     = (Ok [], with_events w [EvHttpGet publications_url 30;
                              EvLog ERROR (ExtractFailed e)]))
  \/
  (exists response soup structural textual w',
     session_get env = Ok response /\
     ~ (400 <= status_code response < 600)%Z /\
     BeautifulSoup env (content response) = Ok soup /\
     extract_publications_from_page env w = (Ok (structural ++ textual), w') /\
     map record_key structural = flat_map node_classification (find_all soup) /\
     fresh_titles structural textual /\
     known_publications w' = known_publications w /\
     disk w' = disk w /\
     trace w' = trace w ++ [EvHttpGet publications_url 30;
                            EvLog INFO (Extracted (length (structural ++ textual)))]).
Proof.
  unfold extract_publications_from_page, try_except, bind, lift, fetch_fails.
  rewrite emit_with_events.
  destruct (session_get env) as [response|e].
  2:{ left. split; [exact I|]. exists e.
      unfold log_error. rewrite emit_with_events, with_events_app. reflexivity. }
  unfold raise_for_status, raise, ret.
  destruct ((400 <=? status_code response) && (status_code response <? 600))%Z eqn:Hs.
  { left. apply andb_prop in Hs as [H1 H2].
    apply Z.leb_le in H1. apply Z.ltb_lt in H2. split; [left; lia|].
    exists (HTTPError (status_code response)).
    unfold log_error. rewrite emit_with_events, with_events_app. reflexivity. }
  assert (~ (400 <= status_code response < 600)%Z) as Hstatus.
  { intros [H1 H2]. apply Z.leb_le in H1. apply Z.ltb_lt in H2.
    rewrite H1, H2 in Hs. discriminate. }
  destruct (BeautifulSoup env (content response)) as [soup|e] eqn:Hsoup.
  2:{ left. split; [right; now exists e|]. exists e.
      unfold log_error. rewrite emit_with_events, with_events_app. reflexivity. }
  right.
  destruct (structural_pass_spec (find_all soup) []
              (with_events w [EvHttpGet publications_url 30]))
    as (structural & w1 & Hrun1 & (K1 & D1 & T1) & Hkeys).
  destruct (text_pass_spec (get_text soup) publication_patterns structural w1)
    as (textual & w2 & Hrun2 & (K2 & D2 & T2) & Hfresh).
  simpl in Hrun1. rewrite Hrun1, Hrun2.
  unfold log_info. rewrite emit_with_events.
  exists response, soup, structural, textual. eexists.
  repeat split; try reflexivity; auto; simpl.
  - now rewrite K2, K1.
  - now rewrite D2, D1.
  - rewrite T2, T1. simpl. now rewrite <- app_assoc.
Qed.

Lemma kind_name_not_text_search k : kind_name k <> str "text_search".
Proof. destruct k; intros H; vm_compute in H; discriminate. Qed.

Lemma structural_records_tagged elements recs :
  map record_key recs = flat_map node_classification elements ->
  Forall (fun r => source_tag r <> str "text_search") recs.
Proof.
  intros Hkeys. apply Forall_forall. intros r Hr.
  assert (In (record_key r) (flat_map node_classification elements)) as Hin
    by (rewrite <- Hkeys; now apply in_map).
  apply in_flat_map in Hin as (element & _ & Hin).
  apply node_classification_first in Hin as (_ & Hname & _).
  simpl in Hname. rewrite Hname. apply kind_name_not_text_search.
Qed.

(** A list made of records that are not from the full-text pass, followed
    by records with fresh titles: a record of the full-text pass shares
    its title, up to letter case, with no other record of the list. *)
Lemma fresh_titles_unshared structural textual :
  Forall (fun r => source_tag r <> str "text_search") structural ->
  fresh_titles structural textual ->
  forall before q after,
    structural ++ textual = before ++ q :: after ->
    source_tag q = str "text_search" ->
    forall p, In p before \/ In p after -> ~ same_title_ci p q.
Proof.
  intros Hs Hf before q after Hsplit Hq.
  assert (exists pre, before = structural ++ pre /\ textual = pre ++ q :: after)
    as (pre & -> & Ht).
  { apply app_eq_app in Hsplit as (l & [[-> Hl]|[-> Hl]]).
    - destruct l as [|x l]; simpl in Hl.
      + exists []. rewrite !app_nil_r. split; [reflexivity | now symmetry].
      + injection Hl as <- _. rewrite Forall_forall in Hs.
        exfalso. apply (Hs q); [|exact Hq].
        apply in_or_app. right. now left.
    - exists l. split; [reflexivity | exact Hl]. }
  intros p [Hp|Hp] Hsame; unfold same_title_ci in Hsame.
  - destruct (fresh_titles_split _ _ _ _ Hf Ht) as [_ Hdup].
    exact (is_duplicate_false _ _ Hdup p Hp Hsame).
  - apply in_split in Hp as (a1 & a2 & ->).
    assert (textual = (pre ++ q :: a1) ++ p :: a2) as Ht'
      by (rewrite Ht, <- app_assoc; reflexivity).
    destruct (fresh_titles_split _ _ _ _ Hf Ht') as [_ Hdup].
    apply (is_duplicate_false _ _ Hdup q); [|now symmetry].
    apply in_or_app. right. apply in_or_app. right. now left.
Qed.

(** C1, as the code has it. Every record that the full-text pass adds
    (the records tagged text_search) has a title that no other record of
    the result shares, letter case ignored, whichever pass produced the
    other record. The extraction always returns a list. (The statement
    says nothing of two records of the structural pass.) *)
Theorem text_search_records_have_unshared_titles (w : World) :
  exists pubs w',
    extract_publications_from_page env w = (Ok pubs, w') /\
    forall before q after,
      pubs = before ++ q :: after ->
      source_tag q = str "text_search" ->
      forall p, In p before \/ In p after -> ~ same_title_ci p q.
Proof.
  destruct (extract_outcome w)
    as [[_ [e Hrun]]
       |(response & soup & structural & textual & w' & _ & _ & _ & Hrun
         & Hkeys & Hfresh & _)].
  - eexists [], _. split; [exact Hrun|].
    intros before q after Hsplit. now destruct before.
  - exists (structural ++ textual), w'. split; [exact Hrun|].
    apply fresh_titles_unshared; [|exact Hfresh].
    now apply structural_records_tagged with (find_all soup).
Qed.

End Extraction.

(** * The extraction and the status of the response *)

Section Statuses.
Context {U : UnicodeDB}.
Variables env1 env2 : Env.

(** The two passes use the collaborators through the clock only. *)
Lemma try_patterns_clock element text : forall entries publications w,
  (forall n, clock env1 n = clock env2 n) ->
  try_patterns env1 element text entries publications w
  = try_patterns env2 element text entries publications w.
Proof.
  intros entries publications w Hclock.
  induction entries as [|[id pub_config] rest IH]; [reflexivity|].
  cbn [try_patterns].
  destruct (is_some (re_search true (pe_regex pub_config) text)); [|exact IH].
  unfold bind, now. now rewrite Hclock.
Qed.

Lemma structural_pass_clock : forall elements publications w,
  (forall n, clock env1 n = clock env2 n) ->
  structural_pass env1 elements publications w
  = structural_pass env2 elements publications w.
Proof.
  induction elements as [|element rest IH]; intros publications w Hclock;
    [reflexivity|].
  cbn [structural_pass]. unfold bind.
  destruct (truthy (tag_text element) && (15 <? length (tag_text element))).
  - rewrite (try_patterns_clock element (tag_text element) publication_patterns
               publications w Hclock).
    destruct (try_patterns env2 element (tag_text element) publication_patterns
                publications w) as [[publications'|e] w']; [|reflexivity].
    now apply IH.
  - unfold ret. now apply IH.
Qed.

Lemma scan_matches_clock page_text id pub_config : forall found publications w,
  (forall n, clock env1 n = clock env2 n) ->
  scan_matches env1 page_text id pub_config found publications w
  = scan_matches env2 page_text id pub_config found publications w.
Proof.
  induction found as [|[m_start m_end] rest IH]; intros publications w Hclock;
    [reflexivity|].
  cbn [scan_matches]. unfold bind.
  set (window := slice (m_start - 200)
                       (Nat.min (length page_text) (m_end + 200)) page_text).
  destruct (truthy (extract_title_from_context window)
            && (15 <? length (extract_title_from_context window))).
  - destruct (negb (is_duplicate publications (extract_title_from_context window))).
    + unfold now, ret. rewrite Hclock. now apply IH.
    + unfold ret. now apply IH.
  - unfold ret. now apply IH.
Qed.

Lemma text_pass_clock page_text : forall entries publications w,
  (forall n, clock env1 n = clock env2 n) ->
  text_pass env1 page_text entries publications w
  = text_pass env2 page_text entries publications w.
Proof.
  induction entries as [|[id pub_config] rest IH]; intros publications w Hclock;
    [reflexivity|].
  cbn [text_pass]. unfold bind.
  rewrite (scan_matches_clock page_text id pub_config
             (re_finditer true (pe_regex pub_config) page_text)
             publications w Hclock).
  destruct (scan_matches env2 page_text id pub_config
              (re_finditer true (pe_regex pub_config) page_text) publications w)
    as [[publications'|e] w']; [|reflexivity].
  now apply IH.
Qed.

(** Two responses with the same body, neither of the error classes: the
    extraction does the same with both. *)
Lemma extract_same_body (w : World) (r1 r2 : Response) :
  session_get env1 = Ok r1 ->
  session_get env2 = Ok r2 ->
  content r1 = content r2 ->
  ~ (400 <= status_code r1 < 600)%Z ->
  ~ (400 <= status_code r2 < 600)%Z ->
  (forall page, BeautifulSoup env1 page = BeautifulSoup env2 page) ->
  (forall n, clock env1 n = clock env2 n) ->
  extract_publications_from_page env1 w = extract_publications_from_page env2 w.
Proof.
  intros Hget1 Hget2 Hbody Hs1 Hs2 Hparse Hclock.
  assert (forall r, ~ (400 <= status_code r < 600)%Z ->
                    ((400 <=? status_code r) && (status_code r <? 600))%Z = false)
    as Hclass.
  { intros r Hr. destruct (400 <=? status_code r)%Z eqn:H1; [|reflexivity].
    destruct (status_code r <? 600)%Z eqn:H2; [|reflexivity].
    apply Z.leb_le in H1. apply Z.ltb_lt in H2. exfalso. apply Hr. lia. }
  unfold extract_publications_from_page, try_except, bind, lift.
  rewrite !emit_with_events, Hget1, Hget2.
  unfold raise_for_status, ret. rewrite (Hclass r1 Hs1), (Hclass r2 Hs2).
  rewrite Hbody, Hparse.
  destruct (BeautifulSoup env2 (content r2)) as [soup|e]; [|reflexivity].
  rewrite (structural_pass_clock (find_all soup) []
             (with_events w [EvHttpGet publications_url 30]) Hclock).
  destruct (structural_pass env2 (find_all soup) []
              (with_events w [EvHttpGet publications_url 30]))
    as [[structural|e] w1]; [|reflexivity].
  rewrite (text_pass_clock (get_text soup) publication_patterns structural w1 Hclock).
  reflexivity.
Qed.

End Statuses.

(** * The Notifier and the daily check *)

Section Notification.
Context {U : UnicodeDB}.
Variable env : Env.

Lemma dict_get_missing {V} (d : list (pystr * V)) (key : pystr) :
  existsb (fun entry => pystr_eqb (fst entry) key) d = false ->
  dict_get d key = Raise (KeyError key).
Proof.
  induction d as [|[k v] d IH]; simpl; [reflexivity|].
  destruct (pystr_eqb k key); simpl; [discriminate | exact IH].
Qed.

Lemma dict_get_present {V} (d : list (pystr * V)) (key : pystr) :
  existsb (fun entry => pystr_eqb (fst entry) key) d = true ->
  exists v, dict_get d key = Ok v.
Proof.
  induction d as [|[k v] d IH]; simpl; [discriminate|].
  destruct (pystr_eqb k key); simpl; [now exists v | exact IH].
Qed.

(** The rendering loop reads nothing but its arguments, and stops with
    [KeyError] at the first record whose [pub_id] the registry lacks. *)
Lemma render_publications_unknown : forall pubs i html w,
  (exists p, In p pubs /\ registry_has (pub_id p) = false) ->
  exists key,
    registry_has key = false /\
    render_publications i pubs html w = (Raise (KeyError key), w).
Proof.
  induction pubs as [|pub rest IH]; intros i html w [p [Hin Hp]]; [destruct Hin|].
  cbn [render_publications]. unfold bind, lift.
  destruct (registry_has (pub_id pub)) eqn:Hpub.
  - destruct (dict_get_present _ _ Hpub) as [entry ->].
    apply IH. destruct Hin as [->|Hin]; [congruence|]. now exists p.
  - exists (pub_id pub). split; [exact Hpub|].
    now rewrite (dict_get_missing _ _ Hpub).
Qed.

Lemma render_publications_world : forall pubs i html w,
  snd (render_publications i pubs html w) = w.
Proof.
  induction pubs as [|pub rest IH]; intros i html w; [reflexivity|].
  cbn [render_publications]. unfold bind, lift.
  destruct (dict_get publication_patterns (pub_id pub)); [apply IH | reflexivity].
Qed.

Lemma create_notification_html_unknown pubs w :
  (exists p, In p pubs /\ registry_has (pub_id p) = false) ->
  exists key,
    registry_has key = false /\
    create_notification_html env pubs w = (Raise (KeyError key), w).
Proof.
  intros H. unfold create_notification_html, bind.
  destruct (@render_publications_unknown pubs 1 [HtmlHead (length pubs)] w H)
    as (key & Hkey & ->).
  now exists key.
Qed.

Lemma create_notification_html_world pubs w :
  only_clock_read w (snd (create_notification_html env pubs w)).
Proof.
  unfold create_notification_html, bind.
  pose proof (render_publications_world pubs 1 [HtmlHead (length pubs)] w) as Hw.
  destruct (render_publications 1 pubs [HtmlHead (length pubs)] w) as [[html|e] w1];
    simpl in Hw; subst w1; simpl; now repeat split.
Qed.

(** [send_gmail_notification] stops at the first name it cannot
    evaluate: whatever the rendering returns, the handler logs the
    exception and the result is [False]. *)
Lemma send_gmail_notification_result pubs w :
  send_gmail_notification env pubs w
  = (Ok false,
     with_events (snd (create_notification_html env pubs w))
       [EvLog ERROR (MailFailed
          match fst (create_notification_html env pubs w) with
          | Ok _ => NameError
          | Raise e => e
          end)]).
Proof.
  unfold send_gmail_notification, try_except, bind.
  destruct (create_notification_html env pubs w) as [[html|e] w1]; reflexivity.
Qed.

(** Every call of [send_gmail_notification] returns a boolean and leaves
    a mark in the trace. *)
Lemma send_gmail_notification_marks pubs w :
  exists b w' evs,
    send_gmail_notification env pubs w = (Ok b, w') /\
    trace w' = trace w ++ evs /\
    existsb is_send_mark evs = true.
Proof.
  rewrite send_gmail_notification_result.
  pose proof (create_notification_html_world pubs w) as (_ & _ & Ht).
  do 2 eexists; eexists; (split; [reflexivity|]); simpl; rewrite Ht;
    (split; [reflexivity|]); reflexivity.
Qed.

(** The daily check in full: three log lines and one reading of the clock *)
Lemma run_daily_check_outcome w :
  run_daily_check env w =
  (Ok tt,
   {| known_publications := known_publications w;
      disk := disk w;
      ticks := S (ticks w);
      trace := trace w ++ [EvLog INFO (DailyStart (strftime (clock env (ticks w))));
                           EvLog INFO Checking;
                           EvLog INFO NothingToNotify] |}).
Proof.
  unfold run_daily_check, check_for_new_publications, bind, now, log_info,
    emit, ret. simpl. now rewrite <- !app_assoc.
Qed.

(** C2. [check_for_new_publications] returns [None] in every state, and
    so the daily check, whatever the site serves and whatever the state,
    takes the branch that only logs that there is nothing to notify: its
    whole effect is three log lines, no call of
    [send_gmail_notification] (which would leave a mark in the trace) is
    made, and [known_publications] is unchanged. *)
Theorem daily_check_never_notifies (w : World) :
  check_for_new_publications w = (Ok None, with_events w [EvLog INFO Checking]) /\
  exists w',
    run_daily_check env w = (Ok tt, w') /\
    known_publications w' = known_publications w /\
    trace w' = trace w ++ [EvLog INFO (DailyStart (strftime (clock env (ticks w))));
                           EvLog INFO Checking;
                           EvLog INFO NothingToNotify] /\
    (forall pubs w0, exists b w1 evs,
        send_gmail_notification env pubs w0 = (Ok b, w1) /\
        trace w1 = trace w0 ++ evs /\
        existsb is_send_mark evs = true) /\
    existsb is_send_mark
      [EvLog INFO (DailyStart (strftime (clock env (ticks w))));
       EvLog INFO Checking; EvLog INFO NothingToNotify] = false.
Proof.
  split; [reflexivity|].
  eexists. split; [apply run_daily_check_outcome|]. simpl.
  repeat split. apply send_gmail_notification_marks.
Qed.

(** C5, as the code has it. When the fetch fails inside the extraction
    ([session.get] raises, as on a network error or a timeout; the
    status of the response is between 400 and 599, on which
    [raise_for_status] raises; or the parser raises) the method logs the
    error and returns the empty list: no exception escapes. No mail is
    sent: the request and the log line are all that the extraction does,
    neither is a send event, and the daily check adds no send event in
    any state. A response with any other status, such as 300, is parsed
    like a successful one: whatever the body and the state, the
    extraction does with it exactly what it does with the same body
    under status 200. *)
Theorem fetch_failure_yields_empty_list (w : World) :
  fetch_fails env ->
  (exists e,
      extract_publications_from_page env w
      = (Ok [], with_events w [EvHttpGet publications_url 30;
                               EvLog ERROR (ExtractFailed e)]) /\
      existsb is_send [EvHttpGet publications_url 30;
                       EvLog ERROR (ExtractFailed e)] = false) /\
  (forall w0, exists w' evs,
      run_daily_check env w0 = (Ok tt, w') /\
      trace w' = trace w0 ++ evs /\
      existsb is_send evs = false) /\
  (forall status body w0,
      ~ (400 <= status < 600)%Z ->
      extract_publications_from_page (answering env status body) w0
      = extract_publications_from_page (answering env 200 body) w0).
Proof.
  intros Hfail. split; [|split].
  - destruct (extract_outcome env w)
      as [[_ [e Hrun]]|(response & soup & _ & _ & _ & Hget & Hstatus & Hsoup & _)].
    + exists e. split; [exact Hrun | reflexivity].
    + exfalso. unfold fetch_fails in Hfail. rewrite Hget in Hfail.
      destruct Hfail as [Hs|[e He]]; [contradiction | congruence].
  - intros w0. do 2 eexists. split; [apply run_daily_check_outcome|].
    simpl. split; reflexivity.
  - intros status body w0 Hstatus.
    apply extract_same_body
      with (r1 := {| status_code := status; content := body |})
           (r2 := {| status_code := 200; content := body |});
      try reflexivity; [exact Hstatus | simpl; lia].
Qed.

(** C8. When the list holds a record whose [pub_id] is not a key of the
    registry, [create_notification_html] raises [KeyError] (for the first
    such record, before anything is sent) and [send_gmail_notification]
    catches it, logs the failure and returns [False]. The record that
    [test_notification] builds has the [pub_id] 'test', which the
    registry lacks, so [test_notification] returns [False] in every
    state. *)
Theorem unknown_pub_id_fails_notification (pubs : list Publication) (w : World) :
  (exists p, In p pubs /\ registry_has (pub_id p) = false) ->
  (exists key,
      registry_has key = false /\
      create_notification_html env pubs w = (Raise (KeyError key), w) /\
      send_gmail_notification env pubs w
      = (Ok false, with_events w [EvLog ERROR (MailFailed (KeyError key))])) /\
  registry_has (str "test") = false /\
  (forall w0, exists w1,
      test_notification env w0 = (Ok false, w1) /\
      trace w1 = trace w0 ++ [EvLog INFO TestSending;
                              EvLog ERROR (MailFailed (KeyError (str "test")))]).
Proof.
  intros H. split; [|split; [reflexivity|]].
  - destruct (@create_notification_html_unknown pubs w H) as (key & Hkey & Hc).
    exists key. repeat split; auto.
    unfold send_gmail_notification, try_except, bind. rewrite Hc. reflexivity.
  - intros w0. unfold test_notification, bind, now, log_info.
    rewrite emit_with_events.
    unfold send_gmail_notification, try_except, bind,
      create_notification_html, bind.
    cbn [render_publications]. unfold bind, lift.
    change (pub_id (test_publication (clock env (ticks w0)))) with (str "test").
    rewrite (@dict_get_missing _ publication_patterns (str "test"))
      by reflexivity.
    unfold log_error, ret. rewrite emit_with_events. eexists.
    split; [reflexivity|]. simpl. now rewrite <- app_assoc.
Qed.

End Notification.

(** * The Known-Publications Store *)

Section Store.
Context {U : UnicodeDB} {J : JsonCodec}.
Variable env : Env.

(** A successful [save_data]: the file holds the serialized store *)
Lemma save_data_writes w :
  write_ok (disk w) = true ->
  write_fault (disk w) (json_dumps (known_publications w)) = None ->
  save_data w =
  (Ok tt,
   with_events (with_file w (json_dumps (known_publications w)))
     [EvFileWrite (json_dumps (known_publications w)); EvLog INFO SaveDone]).
Proof.
  intros Hw Hf. unfold save_data, try_except, bind, get_disk, get_known.
  rewrite Hw. simpl. rewrite Hf. unfold set_file, log_info, emit, ret, with_events,
    with_file. simpl. now rewrite <- app_assoc.
Qed.

(** [save_data] when the file cannot be opened: the error is logged, the
    file is as it was *)
Lemma save_data_fails w :
  write_ok (disk w) = false ->
  save_data w = (Ok tt, with_events w [EvLog ERROR (SaveFailed OSError)]).
Proof.
  intros Hw. unfold save_data, try_except, bind, get_disk, raise.
  rewrite Hw. reflexivity.
Qed.


(** [load_data] when the file is there, can be read and parses to [v] on
    which [len] is defined *)
Lemma load_data_reads w text v n :
  file_content (disk w) = Some text ->
  read_ok (disk w) = true ->
  json_loads text = Some v ->
  py_len v = Ok n ->
  load_data w =
  (Ok tt,
   {| known_publications := v; disk := disk w; ticks := ticks w;
      trace := trace w ++ [EvLog INFO (LoadDone n)] |}).
Proof.
  intros Hf Hr Hv Hn. unfold load_data, try_except, bind, get_disk.
  rewrite Hf, Hr, Hv. unfold ret, set_known, get_known, lift. simpl.
  rewrite Hn. reflexivity.
Qed.





(** C10, as the code has it. Saving a mapping and loading it again
    gives the same mapping when the state file can be opened for writing
    and read, every write of the serialized mapping goes through, and the
    [json] module reads back what it wrote for this mapping: [save_data]
    puts the serialized mapping in the file, and a [load_data] that
    follows, whatever the store holds in memory by then, sets the store to
    the mapping that was saved. *)
Theorem save_then_load_round_trip (w : World) (members : list (pystr * json)) :
  known_publications w = JObj members ->
  write_ok (disk w) = true ->
  write_fault (disk w) (json_dumps (JObj members)) = None ->
  read_ok (disk w) = true ->
  json_loads (json_dumps (JObj members)) = Some (JObj members) ->
  exists w1,
    save_data w = (Ok tt, w1) /\
    known_publications w1 = JObj members /\
    file_content (disk w1) = Some (json_dumps (JObj members)) /\
    trace w1 = trace w ++ [EvFileWrite (json_dumps (JObj members));
                           EvLog INFO SaveDone] /\
    forall w',
      disk w' = disk w1 ->
      exists w2,
        load_data w' = (Ok tt, w2) /\
        known_publications w2 = JObj members /\
        disk w2 = disk w1.
Proof.
  intros Hknown Hw Hf Hr Hcodec. rewrite <- Hknown in Hf.
  pose proof (save_data_writes w Hw Hf) as Hsave. rewrite Hknown in Hsave.
  eexists. split; [exact Hsave|]. simpl.
  split; [exact Hknown|]. split; [reflexivity|]. split; [reflexivity|].
  intros w' Hdisk.
  assert (file_content (disk w') = Some (json_dumps (JObj members))) as Hfile
    by now rewrite Hdisk.
  assert (read_ok (disk w') = true) as Hread by now rewrite Hdisk.
  eexists. split.
  - apply (@load_data_reads w' (json_dumps (JObj members)) (JObj members)
             (length members) Hfile Hread Hcodec eq_refl).
  - simpl. split; [reflexivity | exact Hdisk].
Qed.


End Store.

(** * Further facts about matches, dates and titles *)

Section Spans.
Context {U : UnicodeDB}.

Lemma rep_match_min A ic c lo hi i s (k : nat -> pystr -> option A) x :
  rep_match ic c lo hi i s k = Some x ->
  exists n, lo <= n /\ n <= length s /\ k (i + n) (skipn n s) = Some x.
Proof.
  revert lo hi i.
  assert (Hstop : forall lo i t,
             (if lo =? 0 then k i t else None) = Some x ->
             exists n, lo <= n /\ n <= length t /\
                       k (i + n) (skipn n t) = Some x).
  { intros lo i t H. destruct (lo =? 0) eqn:Hlo; [|discriminate].
    apply Nat.eqb_eq in Hlo. exists 0. rewrite Nat.add_0_r.
    repeat split; [lia | lia | exact H]. }
  induction s as [|ch s IH]; intros lo hi i; simpl.
  - apply Hstop.
  - destruct (cset_accepts ic c ch && hi_allows hi); [|apply Hstop].
    destruct (rep_match ic c (pred lo) (hi_pred hi) (S i) s k) eqn:E.
    + intros [= ->]. apply IH in E as (n & Hlo & Hn & Hk).
      exists (S n). repeat split; [lia | lia |]. simpl.
      now replace (i + S n) with (S i + n) by lia.
    + apply Hstop.
Qed.

(** A match of [r] spans at least [min_length r] characters. *)
Lemma re_match_min A ic r : forall i s (k : nat -> pystr -> option A) x,
  re_match ic r i s k = Some x ->
  exists n, min_length r <= n /\ n <= length s /\
            k (i + n) (skipn n s) = Some x.
Proof.
  assert (Hzero : forall i s (k : nat -> pystr -> option A) x,
             k i s = Some x ->
             exists n, 0 <= n /\ n <= length s /\
                       k (i + n) (skipn n s) = Some x).
  { intros i s k x H. exists 0. rewrite Nat.add_0_r.
    repeat split; [lia | lia | exact H]. }
  induction r as [|c|r1 IH1 r2 IH2|r1 IH1 r2 IH2|r1 IH1|c lo hi|];
    intros i s k x; simpl.
  - apply Hzero.
  - destruct s as [|ch s]; [discriminate|].
    destruct (cset_accepts ic c ch); [|discriminate].
    intros H. exists 1. repeat split; [lia | simpl; lia |].
    simpl. now replace (i + 1) with (S i) by lia.
  - intros H. apply IH1 in H as (n1 & Hm1 & Hn1 & H).
    apply IH2 in H as (n2 & Hm2 & Hn2 & H).
    rewrite length_skipn in Hn2. rewrite skipn_add in H.
    exists (n1 + n2). repeat split; [lia | lia |].
    now replace (i + (n1 + n2)) with (i + n1 + n2) by lia.
  - destruct (re_match ic r1 i s k) eqn:E.
    + intros [= ->]. apply IH1 in E as (n & Hm & Hn & H).
      exists n. repeat split; [lia | lia | exact H].
    + intros H. apply IH2 in H as (n & Hm & Hn & H).
      exists n. repeat split; [lia | lia | exact H].
  - destruct (re_match ic r1 i s k) eqn:E.
    + intros [= ->]. apply IH1 in E as (n & Hm & Hn & H).
      exists n. repeat split; [lia | lia | exact H].
    + apply Hzero.
  - apply rep_match_min.
  - destruct (i =? 0); [apply Hzero | discriminate].
Qed.

Lemma match_at_min ic r i s e :
  match_at ic r i s = Some e -> i + min_length r <= e.
Proof.
  intros H. apply re_match_min in H as (n & Hm & _ & [= <-]). lia.
Qed.

Lemma firstn_plus {A} (n m : nat) : forall l : list A,
  firstn (n + m) l = firstn n l ++ firstn m (skipn n l).
Proof.
  induction n as [|n IH]; intros l; [reflexivity|].
  destruct l as [|x l]; simpl; [now rewrite firstn_nil | now rewrite IH].
Qed.

(** [s[a:b] = s[a:m] + s[m:b]] *)
Lemma slice_split (a m b : nat) (s : pystr) :
  a <= m -> m <= b -> slice a b s = slice a m s ++ slice m b s.
Proof.
  intros Ham Hmb. unfold slice.
  replace (b - a) with ((m - a) + (b - m)) by lia.
  rewrite firstn_plus, skipn_add. now replace (a + (m - a)) with m by lia.
Qed.

Lemma slice_length (a b : nat) (s : pystr) :
  b <= length s -> length (slice a b s) = b - a.
Proof.
  intros Hb. unfold slice. rewrite length_firstn, length_skipn. lia.
Qed.

Lemma slice_length_le (a b : nat) (s : pystr) : length (slice a b s) <= b - a.
Proof. unfold slice. rewrite length_firstn. lia. Qed.

Lemma slice_piece (a b : nat) (s : pystr) : piece_of (slice a b s) s.
Proof.
  exists (firstn a s), (skipn (b - a) (skipn a s)). unfold slice.
  now rewrite firstn_skipn, firstn_skipn.
Qed.

(** The spans that the scan of [re.finditer] reports lie inside the part
    of the subject it scans. *)
Lemma finditer_from_spans ic r : forall s skip i,
  Forall (fun m => i <= fst m /\ fst m <= snd m /\ snd m <= i + length s)
         (finditer_from ic r skip i s).
Proof.
  assert (Hshift : forall i (s : pystr) l,
             Forall (fun m => S i <= fst m /\ fst m <= snd m
                              /\ snd m <= S i + length s) l ->
             Forall (fun m : nat * nat => i <= fst m /\ fst m <= snd m
                              /\ snd m <= i + S (length s)) l).
  { intros i s l H. eapply Forall_impl; [|exact H]. simpl. intros m. lia. }
  induction s as [|c s IH]; intros skip i.
  - destruct skip; simpl; [|constructor].
    destruct (match_at ic r i []) eqn:E; constructor; [|constructor].
    apply match_at_bounds in E. simpl in *. lia.
  - destruct skip as [|skip]; simpl.
    + destruct (match_at ic r i (c :: s)) eqn:E.
      * constructor; [apply match_at_bounds in E; simpl in *; lia|].
        apply Hshift, IH.
      * apply Hshift, IH.
    + apply Hshift, IH.
Qed.

Lemma re_finditer_spans ic r s m_start m_end :
  In (m_start, m_end) (re_finditer ic r s) ->
  m_start <= m_end /\ m_end <= length s.
Proof.
  intros H. pose proof (finditer_from_spans ic r s 0 0) as Hall.
  rewrite Forall_forall in Hall. apply Hall in H. simpl in H. lia.
Qed.

(** X13. The window that the full-text pass cuts around a match reported
    by [re.finditer] holds the matched text with at most 200 characters
    before it and at most 200 after it, and never reaches outside the
    page text. *)
Theorem context_window_surrounds_match ic r (page_text : pystr) m_start m_end :
  In (m_start, m_end) (re_finditer ic r page_text) ->
  exists before after,
    context_window page_text m_start m_end
    = before ++ slice m_start m_end page_text ++ after /\
    length before <= 200 /\ length after <= 200 /\
    length (slice m_start m_end page_text) = m_end - m_start /\
    piece_of (context_window page_text m_start m_end) page_text.
Proof.
  intros H. apply re_finditer_spans in H as [Hse He].
  unfold context_window.
  set (a := m_start - 200).
  set (b := Nat.min (length page_text) (m_end + 200)).
  assert (a <= m_start) by (unfold a; lia).
  assert (m_end <= b) by (unfold b; lia).
  exists (slice a m_start page_text), (slice m_end b page_text).
  split; [|split; [|split; [|split]]].
  - rewrite (@slice_split a m_start b page_text) by lia.
    now rewrite (@slice_split m_start m_end b page_text) by lia.
  - pose proof (slice_length_le a m_start page_text). unfold a in *. lia.
  - pose proof (slice_length_le m_end b page_text). unfold b in *. lia.
  - now apply slice_length.
  - apply slice_piece.
Qed.

(** ** Dates *)

Lemma first_date_cases context : forall patterns,
  (Forall (fun q => re_search true q context = None) patterns /\
   first_date patterns context = []) \/
  (exists p s e,
      In p patterns /\ re_search true p context = Some (s, e) /\
      first_date patterns context = slice s e context).
Proof.
  induction patterns as [|q patterns IH]; simpl.
  - left. split; constructor.
  - destruct (re_search true q context) as [[s e]|] eqn:E.
    + right. exists q, s, e. repeat split; auto.
    + destruct IH as [[Hnone Hres]|(p & s & e & Hin & Hp & Hres)].
      * left. split; [constructor; auto | exact Hres].
      * right. exists p, s, e. repeat split; auto.
Qed.

Lemma date_patterns_min_length p :
  In p date_patterns -> 8 <= min_length p.
Proof.
  intros [<-|[<-|[<-|[]]]]; vm_compute; repeat constructor.
Qed.

(** X6. The Date Extractor returns the empty string exactly when none of
    the three patterns occurs in the window. Otherwise the date it
    returns has at least 8 characters. In both cases the result is a run
    of consecutive characters of the window. *)
Theorem date_text_empty_iff_no_match (context : pystr) :
  (extract_date_from_context context = [] <->
   Forall (fun q => re_search true q context = None) date_patterns) /\
  (extract_date_from_context context <> [] ->
   8 <= length (extract_date_from_context context)) /\
  piece_of (extract_date_from_context context) context.
Proof.
  unfold extract_date_from_context.
  destruct (first_date_cases context date_patterns)
    as [[Hnone Hres]|(p & s & e & Hin & Hp & Hres)].
  - rewrite Hres. split; [tauto|]. split; [congruence|].
    exists [], context. reflexivity.
  - rewrite Hres.
    destruct (re_search_spec _ _ _ Hp) as ((Hse & He) & Hm & _).
    apply match_at_min in Hm. apply date_patterns_min_length in Hin as Hmin.
    assert (length (slice s e context) = e - s) as Hlen
      by now apply slice_length.
    split; [|split; [intros _; lia | apply slice_piece]].
    split.
    + intros Hnil. rewrite Hnil in Hlen. simpl in Hlen. lia.
    + intros Hnone. rewrite Forall_forall in Hnone.
      rewrite (Hnone p Hin) in Hp. discriminate.
Qed.

(** ** Titles *)

Lemma drop_while_suffix (p : char -> bool) : forall s,
  exists before, s = before ++ drop_while p s.
Proof.
  induction s as [|c s [before IH]]; simpl.
  - now exists [].
  - destruct (p c).
    + exists (c :: before). simpl. now rewrite <- IH.
    + now exists [].
Qed.

Lemma strip_piece (s : pystr) : piece_of (strip s) s.
Proof.
  unfold strip, rstrip, lstrip.
  destruct (drop_while_suffix uni_isspace s) as [before Hb].
  destruct (drop_while_suffix uni_isspace (rev (drop_while uni_isspace s)))
    as [tail Ht].
  exists before, (rev tail).
  rewrite <- rev_app_distr, <- Ht, rev_involutive. exact Hb.
Qed.

Lemma piece_of_in (piece s : pystr) c : piece_of piece s -> In c piece -> In c s.
Proof.
  intros (before & after & ->) H.
  apply in_or_app. right. apply in_or_app. now left.
Qed.

Lemma piece_of_trans (a b c : pystr) : piece_of a b -> piece_of b c -> piece_of a c.
Proof.
  intros (b1 & b2 & ->) (c1 & c2 & ->).
  exists (c1 ++ b1), (b2 ++ c2). now rewrite <- !app_assoc.
Qed.

(** The lines of [s.split(sep)]: the first is the start of [s]; each is a
    run of consecutive characters of [s] without the separator. *)
Lemma split_on_lines sep : forall s,
  (exists l ls after, split_on sep s = l :: ls /\ s = l ++ after) /\
  forall l, In l (split_on sep s) -> piece_of l s /\ ~ In sep l.
Proof.
  induction s as [|c s [(l0 & ls & after & Hsplit & Hs) IH]]; simpl.
  - split; [now exists [], [], []|].
    intros l [<-|[]]. split; [now exists [], [] | intros []].
  - destruct (c =? sep)%N eqn:Hc.
    + split; [now exists [], (split_on sep s), (c :: s)|].
      intros l [<-|Hl]; [split; [now exists [], (c :: s) | intros []]|].
      destruct (IH l Hl) as [(before & after' & Hp) Hno]. split; [|exact Hno].
      exists (c :: before), after'. simpl. now rewrite <- Hp.
    + rewrite Hsplit. split.
      * exists (c :: l0), ls, after. split; [reflexivity|]. simpl. now rewrite <- Hs.
      * apply N.eqb_neq in Hc.
        assert (In l0 (split_on sep s)) as Hl0 by (rewrite Hsplit; now left).
        intros l [<-|Hl].
        -- split.
           ++ exists [], after. simpl. now rewrite <- Hs.
           ++ intros [Heq|Hin]; [congruence|]. now apply (IH l0 Hl0).
        -- assert (In l (split_on sep s)) as Hl' by (rewrite Hsplit; now right).
           destruct (IH l Hl') as [(before & after' & Hp) Hno].
           split; [|exact Hno].
           exists (c :: before), after'. simpl. now rewrite <- Hp.
Qed.

Lemma extract_title_piece (context : pystr) :
  piece_of (extract_title_from_context context) context.
Proof.
  unfold extract_title_from_context. rewrite first_title_find.
  destruct (find plausible_title (map strip (split_on NL context)))
    as [line|] eqn:E; [|now exists [], context].
  apply find_some in E as [Hin _].
  apply in_map_iff in Hin as (raw & <- & Hraw).
  apply piece_of_trans with raw; [apply strip_piece|].
  now apply (split_on_lines NL context).
Qed.

Lemma extract_title_plausible (context : pystr) :
  extract_title_from_context context <> [] ->
  plausible_title (extract_title_from_context context) = true.
Proof.
  unfold extract_title_from_context. rewrite first_title_find.
  destruct (find plausible_title (map strip (split_on NL context)))
    as [line|] eqn:E; [|congruence].
  intros _. now apply find_some in E.
Qed.

Lemma extract_date_piece (context : pystr) :
  piece_of (extract_date_from_context context) context.
Proof.
  unfold extract_date_from_context.
  destruct (first_date_cases context date_patterns)
    as [[_ ->]|(p & s & e & _ & _ & ->)];
    [now exists [], context | apply slice_piece].
Qed.

(** X14. The title that the Title Extractor returns is a run of
    consecutive characters of the window, taken from one line: it holds
    no line break. *)
Theorem title_is_piece_of_one_line (context : pystr) :
  piece_of (extract_title_from_context context) context /\
  ~ In NL (extract_title_from_context context).
Proof.
  unfold extract_title_from_context. rewrite first_title_find.
  destruct (find plausible_title (map strip (split_on NL context)))
    as [line|] eqn:E.
  2:{ split; [now exists [], context | intros []]. }
  apply find_some in E as [Hin _].
  apply in_map_iff in Hin as (raw & <- & Hraw).
  destruct (split_on_lines NL context) as [_ Hlines].
  destruct (Hlines raw Hraw) as [Hpiece Hno]. split.
  - apply piece_of_trans with raw; [apply strip_piece | exact Hpiece].
  - intros Hnl. apply Hno.
    apply piece_of_in with (strip raw); [apply strip_piece | exact Hnl].
Qed.

End Spans.

(** * The records of an extraction *)

Section Records.
Context {U : UnicodeDB}.
Variable env : Env.

Lemma now_tick w : now env w = (Ok (clock env (ticks w)), tick w).
Proof. reflexivity. Qed.

Lemma stamped_app P : forall l1 t l2,
  stamped P t (l1 ++ l2) <-> stamped P t l1 /\ stamped P (t + length l1) l2.
Proof.
  induction l1 as [|r l1 IH]; intros t l2; simpl.
  - rewrite Nat.add_0_r. tauto.
  - rewrite IH. replace (t + S (length l1)) with (S t + length l1) by lia. tauto.
Qed.

Lemma stamped_impl (P Q : nat -> Publication -> Prop) :
  (forall t r, P t r -> Q t r) ->
  forall l t, stamped P t l -> stamped Q t l.
Proof.
  intros HPQ. induction l as [|r l IH]; intros t; simpl; [tauto|].
  intros [Hr Hl]. split; [now apply HPQ | now apply IH].
Qed.

Lemma stamped_nth P : forall l t k r,
  stamped P t l -> nth_error l k = Some r -> P (t + k) r.
Proof.
  induction l as [|x l IH]; intros t k r Hl Hk; [now destruct k|].
  destruct Hl as [Hx Hl]. destruct k as [|k]; simpl in Hk.
  - injection Hk as <-. now rewrite Nat.add_0_r.
  - replace (t + S k) with (S t + k) by lia. now apply IH.
Qed.

Lemma stamped_forall P (Q : Publication -> Prop) :
  (forall t r, P t r -> Q r) ->
  forall l t, stamped P t l -> Forall Q l.
Proof.
  intros HPQ. induction l as [|r l IH]; intros t; simpl; [constructor|].
  intros [Hr Hl]. constructor; [now apply HPQ with t | now apply IH with (S t)].
Qed.

(** The inner loop of the structural pass, in closed form *)
Lemma try_patterns_exact element text : forall entries publications w,
  try_patterns env element text entries publications w =
  match find (entry_matches text) entries with
  | Some entry =>
      (Ok (publications ++ [node_record env element text entry (ticks w)]), tick w)
  | None => (Ok publications, w)
  end.
Proof.
  induction entries as [|[id pub_config] rest IH]; intros publications w;
    [reflexivity|].
  simpl. unfold entry_matches at 1. simpl.
  destruct (is_some (re_search true (pe_regex pub_config) text));
    [reflexivity | apply IH].
Qed.

(** Every record that the structural pass adds is the record of a
    candidate node under the first entry that matches it, stamped with
    the next reading of the clock. *)
Lemma structural_pass_provenance (all : list Tag) : forall elements publications w,
  (forall element, In element elements -> In element all) ->
  exists recs w',
    structural_pass env elements publications w = (Ok (publications ++ recs), w') /\
    ticks w' = ticks w + length recs /\
    stamped (from_structural_pass env all) (ticks w) recs.
Proof.
  induction elements as [|element rest IH]; intros publications w Hall.
  - exists [], w. simpl. rewrite app_nil_r. repeat split. lia.
  - assert (forall e, In e rest -> In e all) as Hrest
      by (intros e He; apply Hall; now right).
    cbn [structural_pass]. unfold bind.
    change (truthy (tag_text element) && (15 <? length (tag_text element)))
      with (candidate_node element).
    destruct (candidate_node element) eqn:Hcand.
    + rewrite try_patterns_exact.
      destruct (find (entry_matches (tag_text element)) publication_patterns)
        as [entry|] eqn:Hfind.
      * destruct (IH (publications ++
                        [node_record env element (tag_text element) entry (ticks w)])
                     (tick w) Hrest)
          as (recs & w' & -> & Ht & Hs).
        exists (node_record env element (tag_text element) entry (ticks w) :: recs), w'.
        rewrite <- app_assoc. split; [reflexivity|]. simpl in *.
        split; [lia|]. split; [|exact Hs].
        exists element, entry. repeat split; auto; apply Hall; now left.
      * now apply IH.
    + unfold ret. now apply IH.
Qed.

(** Every record that the loop over the matches of one pattern adds is
    the record of the window around one of these matches. *)
Lemma scan_matches_provenance page_text id pub_config :
  In (id, pub_config) publication_patterns ->
  forall found publications w,
    (forall m, In m found ->
               In m (re_finditer true (pe_regex pub_config) page_text)) ->
    exists added w',
      scan_matches env page_text id pub_config found publications w
        = (Ok (publications ++ added), w') /\
      ticks w' = ticks w + length added /\
      stamped (from_text_pass env page_text) (ticks w) added.
Proof.
  intros Hentry.
  induction found as [|[m_start m_end] rest IH]; intros publications w Hfound.
  - exists [], w. simpl. rewrite app_nil_r. repeat split. lia.
  - assert (forall m, In m rest ->
                      In m (re_finditer true (pe_regex pub_config) page_text))
      as Hrest by (intros m Hm; apply Hfound; now right).
    cbn [scan_matches]. unfold bind.
    change (slice (m_start - 200)
                  (Nat.min (length page_text) (m_end + 200)) page_text)
      with (context_window page_text m_start m_end).
    set (window := context_window page_text m_start m_end).
    destruct (truthy (extract_title_from_context window)
              && (15 <? length (extract_title_from_context window))) eqn:Hlong;
      [destruct (is_duplicate publications (extract_title_from_context window))|];
      cbn [negb].
    + unfold ret. now apply IH.
    + unfold ret. rewrite now_tick.
      change {| pub_id := id;
                title := extract_title_from_context window;
                date_text := extract_date_from_context window;
                pattern_matched := pe_pattern pub_config;
                priority := pe_priority pub_config;
                extracted_at := isoformat (clock env (ticks w));
                source_tag := str "text_search" |}
        with (window_record env window (id, pub_config) (ticks w)).
      destruct (IH (publications ++
                      [window_record env window (id, pub_config) (ticks w)])
                   (tick w) Hrest)
        as (added & w' & -> & Ht & Hs).
      exists (window_record env window (id, pub_config) (ticks w) :: added), w'.
      rewrite <- app_assoc. split; [reflexivity|]. simpl in *.
      split; [lia|]. split; [|exact Hs].
      exists (id, pub_config), m_start, m_end.
      apply andb_prop in Hlong as [_ Hlong]. apply Nat.ltb_lt in Hlong.
      repeat split; auto; apply Hfound; now left.
    + unfold ret. now apply IH.
Qed.

Lemma text_pass_provenance page_text : forall entries publications w,
  (forall entry, In entry entries -> In entry publication_patterns) ->
  exists added w',
    text_pass env page_text entries publications w
      = (Ok (publications ++ added), w') /\
    ticks w' = ticks w + length added /\
    stamped (from_text_pass env page_text) (ticks w) added.
Proof.
  induction entries as [|[id pub_config] rest IH]; intros publications w Hall.
  - exists [], w. simpl. rewrite app_nil_r. repeat split. lia.
  - cbn [text_pass]. unfold bind.
    destruct (@scan_matches_provenance page_text id pub_config
                (Hall _ (or_introl eq_refl))
                (re_finditer true (pe_regex pub_config) page_text)
                publications w (fun m H => H))
      as (added1 & w1 & -> & Ht1 & Hs1).
    destruct (IH (publications ++ added1) w1
                 (fun e He => Hall e (or_intror He)))
      as (added2 & w2 & -> & Ht2 & Hs2).
    exists (added1 ++ added2), w2. rewrite app_assoc.
    split; [reflexivity|]. split; [rewrite length_app; lia|].
    apply stamped_app. split; [exact Hs1|]. now rewrite <- Ht1.
Qed.

(** The records of an extraction come from the page that was served, and
    each has its own reading of the clock, in order. *)
Lemma extract_provenance (w : World) :
  exists pubs w',
    extract_publications_from_page env w = (Ok pubs, w') /\
    ticks w' = ticks w + length pubs /\
    stamped (served env) (ticks w) pubs.
Proof.
  unfold extract_publications_from_page, try_except, bind, lift.
  rewrite emit_with_events.
  destruct (session_get env) as [response|e] eqn:Hget.
  2:{ do 2 eexists. split; [reflexivity|]. simpl. split; [lia | exact I]. }
  unfold raise_for_status, raise, ret.
  destruct ((400 <=? status_code response) && (status_code response <? 600))%Z.
  { do 2 eexists. split; [reflexivity|]. simpl. split; [lia | exact I]. }
  destruct (BeautifulSoup env (content response)) as [soup|e] eqn:Hsoup.
  2:{ do 2 eexists. split; [reflexivity|]. simpl. split; [lia | exact I]. }
  destruct (@structural_pass_provenance (find_all soup) (find_all soup) []
              (with_events w [EvHttpGet publications_url 30]) (fun e H => H))
    as (structural & w1 & Hrun1 & Ht1 & Hs1).
  destruct (@text_pass_provenance (get_text soup) publication_patterns
              structural w1 (fun e H => H))
    as (textual & w2 & Hrun2 & Ht2 & Hs2).
  simpl in Hrun1. rewrite Hrun1, Hrun2.
  unfold log_info. rewrite emit_with_events.
  do 2 eexists. split; [reflexivity|]. simpl in *.
  split; [rewrite length_app; lia|].
  apply stamped_app. split.
  - eapply stamped_impl; [|exact Hs1].
    intros t r H. exists response, soup. repeat split; auto. now left.
  - rewrite <- Ht1. eapply stamped_impl; [|exact Hs2].
    intros t r H. exists response, soup. repeat split; auto. now right.
Qed.

End Records.

(** * What every extraction guarantees *)

Section Guarantees.
Context {U : UnicodeDB}.
Variable env : Env.

(** The keys of the registry are distinct: looking up the key of an
    entry gives that entry. *)
Lemma registry_lookup entry :
  In entry publication_patterns ->
  dict_get publication_patterns (fst entry) = Ok (snd entry).
Proof.
  unfold publication_patterns. intros H.
  repeat (destruct H as [<-|H]; [reflexivity|]). destruct H.
Qed.

Lemma from_page_well_formed soup t r :
  from_page env soup t r -> well_formed_record r.
Proof.
  intros [(element & entry & _ & Hcand & Hfind & ->)
         |(entry & m_start & m_end & Hentry & _ & Hlong & ->)].
  - split.
    + unfold candidate_node in Hcand. apply andb_prop in Hcand as [_ Hlen].
      now apply Nat.ltb_lt in Hlen.
    + exists (snd entry). apply find_some in Hfind as [Hin _].
      split; [now apply registry_lookup | split; reflexivity].
  - split; [exact Hlong|]. exists (snd entry).
    split; [now apply registry_lookup | split; reflexivity].
Qed.

(** X1. Every record that the extraction returns has a title of more
    than 15 characters and a [pub_id] that is a key of the registry, with
    the priority and the pattern of that registry entry. *)
Theorem extracted_records_are_well_formed (w : World) :
  exists pubs w',
    extract_publications_from_page env w = (Ok pubs, w') /\
    Forall well_formed_record pubs.
Proof.
  destruct (extract_provenance env w) as (pubs & w' & Hrun & _ & Hs).
  exists pubs, w'. split; [exact Hrun|].
  eapply stamped_forall; [|exact Hs].
  intros t r (response & soup & _ & _ & Hr).
  now apply from_page_well_formed with soup t.
Qed.

Lemma from_page_text soup t r :
  from_page env soup t r ->
  (source_tag r = str "text_search" /\
   plausible_title (title r) = true /\
   piece_of (title r) (get_text soup) /\
   piece_of (date_text r) (get_text soup))
  \/
  (exists element,
      In element (find_all soup) /\
      title r = tag_text element /\
      source_tag r = tag_name element /\
      match tag_parent element with
      | Some text => piece_of (date_text r) text
      | None => date_text r = []
      end).
Proof.
  intros [(element & entry & Hin & _ & _ & ->)
         |(entry & m_start & m_end & _ & _ & Hlong & ->)].
  - right. exists element. repeat split; auto. simpl.
    unfold extract_date_near_element.
    destruct (tag_parent element); [apply extract_date_piece | reflexivity].
  - left. simpl. split; [reflexivity|]. split; [|split].
    + apply extract_title_plausible. intros Hnil. rewrite Hnil in Hlong.
      simpl in Hlong. lia.
    + eapply piece_of_trans; [apply extract_title_piece | apply slice_piece].
    + eapply piece_of_trans; [apply extract_date_piece | apply slice_piece].
Qed.

(** X2. No text of a record is made up. A record tagged text_search has
    a title that the Title Extractor accepts (more than 20 and fewer than
    200 characters, no navigation word in front), and its title and its
    date are runs of consecutive characters of the flattened page text.
    Any other record has the text and the name of one of the page's
    heading or link elements, and its date is a run of characters of the
    text of that element's parent (empty when there is no parent). *)
Theorem extracted_text_comes_from_the_page (w : World) :
  exists pubs w',
    extract_publications_from_page env w = (Ok pubs, w') /\
    forall r, In r pubs ->
      exists response soup,
        session_get env = Ok response /\
        BeautifulSoup env (content response) = Ok soup /\
        ((source_tag r = str "text_search" /\
          plausible_title (title r) = true /\
          piece_of (title r) (get_text soup) /\
          piece_of (date_text r) (get_text soup))
         \/
         (exists element,
             In element (find_all soup) /\
             title r = tag_text element /\
             source_tag r = tag_name element /\
             match tag_parent element with
             | Some text => piece_of (date_text r) text
             | None => date_text r = []
             end)).
Proof.
  destruct (extract_provenance env w) as (pubs & w' & Hrun & _ & Hs).
  exists pubs, w'. split; [exact Hrun|].
  apply Forall_forall.
  eapply stamped_forall; [|exact Hs].
  intros t r (response & soup & Hget & Hsoup & Hr).
  exists response, soup. split; [exact Hget|]. split; [exact Hsoup|].
  now apply from_page_text with t.
Qed.

Lemma from_page_stamp soup t r :
  from_page env soup t r -> extracted_at r = isoformat (clock env t).
Proof.
  intros [(element & entry & _ & _ & _ & ->)
         |(entry & m_start & m_end & _ & _ & _ & ->)]; reflexivity.
Qed.

(** X3. The extraction reads the clock once for each record it returns
    and for nothing else, and the records carry these readings in order:
    the record at position [k] of the result is stamped with reading
    number [k] after those made before the call. *)
Theorem extraction_stamps_records_in_order (w : World) :
  exists pubs w',
    extract_publications_from_page env w = (Ok pubs, w') /\
    ticks w' = ticks w + length pubs /\
    forall k r, nth_error pubs k = Some r ->
                extracted_at r = isoformat (clock env (ticks w + k)).
Proof.
  destruct (extract_provenance env w) as (pubs & w' & Hrun & Ht & Hs).
  exists pubs, w'. split; [exact Hrun|]. split; [exact Ht|].
  intros k r Hk.
  destruct (stamped_nth _ _ _ _ Hs Hk) as (response & soup & _ & _ & Hr).
  now apply from_page_stamp with soup.
Qed.

(** X4. However it ends, an extraction makes exactly one request, a GET
    of the publications URL with a timeout of 30 seconds, and writes
    exactly one log line: the number of records it returns, or the error
    that made it return the empty list. It sends no mail and leaves the
    known-publications store and the state file as they were. *)
Theorem extraction_effects (w : World) :
  exists pubs w' line,
    extract_publications_from_page env w = (Ok pubs, w') /\
    known_publications w' = known_publications w /\
    disk w' = disk w /\
    trace w' = trace w ++ [EvHttpGet publications_url 30; line] /\
    (line = EvLog INFO (Extracted (length pubs)) \/
     exists e, line = EvLog ERROR (ExtractFailed e) /\ pubs = []).
Proof.
  destruct (extract_outcome env w)
    as [[_ [e Hrun]]
       |(response & soup & structural & textual & w' & _ & _ & _ & Hrun
         & _ & _ & Hk & Hd & Ht)].
  - do 3 eexists. split; [exact Hrun|]. simpl.
    repeat split. right. now exists e.
  - do 3 eexists. split; [exact Hrun|].
    split; [exact Hk|]. split; [exact Hd|]. split; [exact Ht|]. now left.
Qed.

Lemma fresh_titles_nodup : forall added base,
  NoDup (map (fun r => str_lower (title r)) base) ->
  fresh_titles base added ->
  NoDup (map (fun r => str_lower (title r)) (base ++ added)).
Proof.
  induction added as [|r added IH]; intros base Hbase Hfresh.
  - now rewrite app_nil_r.
  - destruct Hfresh as (_ & Hdup & Hfresh).
    replace (base ++ r :: added) with ((base ++ [r]) ++ added)
      by (now rewrite <- app_assoc).
    apply IH; [|exact Hfresh].
    rewrite map_app. simpl. apply NoDup_app; [exact Hbase | | ].
    + constructor; [intros [] | constructor].
    + intros x Hx [<-|[]].
      apply in_map_iff in Hx as (p & Heq & Hp).
      exact (is_duplicate_false _ _ Hdup p Hp Heq).
Qed.

(** X5. When the candidate nodes of the page that match the registry
    carry pairwise different texts, letter case ignored, the whole result
    of the extraction holds no two records with the same title, letter
    case ignored. *)
Theorem distinct_nodes_give_distinct_titles response soup (w : World) :
  session_get env = Ok response ->
  BeautifulSoup env (content response) = Ok soup ->
  NoDup (map (fun key => str_lower (snd (fst key)))
             (flat_map node_classification (find_all soup))) ->
  exists pubs w',
    extract_publications_from_page env w = (Ok pubs, w') /\
    NoDup (map (fun r => str_lower (title r)) pubs).
Proof.
  intros Hget Hsoup Hnodes.
  destruct (extract_outcome env w)
    as [[_ [e Hrun]]
       |(response' & soup' & structural & textual & w' & Hget' & _ & Hsoup'
         & Hrun & Hkeys & Hfresh & _)].
  - do 2 eexists. split; [exact Hrun | constructor].
  - rewrite Hget in Hget'. injection Hget' as <-.
    rewrite Hsoup in Hsoup'. injection Hsoup' as <-.
    exists (structural ++ textual), w'. split; [exact Hrun|].
    apply fresh_titles_nodup; [|exact Hfresh].
    rewrite <- Hkeys, map_map in Hnodes. exact Hnodes.
Qed.

End Guarantees.

(** * Two extractions of the same page *)

Section Repeatable.
Context {U : UnicodeDB}.
Variables env1 env2 : Env.

Lemma is_duplicate_content : forall pubs1 pubs2 t,
  map record_content pubs1 = map record_content pubs2 ->
  is_duplicate pubs1 t = is_duplicate pubs2 t.
Proof.
  induction pubs1 as [|p pubs1 IH]; intros [|q pubs2] t H;
    try discriminate; [reflexivity|].
  simpl in H. injection H as _ Htitle _ _ _ _ Hrest. simpl.
  rewrite Htitle. f_equal. now apply IH.
Qed.

Lemma map_content_snoc pubs1 pubs2 r1 r2 :
  map record_content pubs1 = map record_content pubs2 ->
  record_content r1 = record_content r2 ->
  map record_content (pubs1 ++ [r1]) = map record_content (pubs2 ++ [r2]).
Proof. intros H Hr. rewrite !map_app. simpl. now rewrite H, Hr. Qed.

Lemma structural_pass_content : forall elements pubs1 pubs2 w1 w2,
  map record_content pubs1 = map record_content pubs2 ->
  map record_content (records_of (structural_pass env1 elements pubs1 w1))
  = map record_content (records_of (structural_pass env2 elements pubs2 w2)).
Proof.
  induction elements as [|element rest IH]; intros pubs1 pubs2 w1 w2 H;
    [exact H|].
  cbn [structural_pass]. unfold bind.
  destruct (truthy (tag_text element) && (15 <? length (tag_text element))).
  - rewrite !try_patterns_exact.
    destruct (find (entry_matches (tag_text element)) publication_patterns)
      as [entry|].
    + apply IH. now apply map_content_snoc.
    + now apply IH.
  - unfold ret. now apply IH.
Qed.

Lemma scan_matches_content page_text id pub_config :
  forall found pubs1 pubs2 w1 w2,
    map record_content pubs1 = map record_content pubs2 ->
    map record_content
      (records_of (scan_matches env1 page_text id pub_config found pubs1 w1))
    = map record_content
        (records_of (scan_matches env2 page_text id pub_config found pubs2 w2)).
Proof.
  induction found as [|[m_start m_end] rest IH]; intros pubs1 pubs2 w1 w2 H;
    [exact H|].
  cbn [scan_matches]. unfold bind.
  set (window := slice (m_start - 200)
                       (Nat.min (length page_text) (m_end + 200)) page_text).
  destruct (truthy (extract_title_from_context window)
            && (15 <? length (extract_title_from_context window))).
  - rewrite (is_duplicate_content pubs1 pubs2 _ H).
    destruct (is_duplicate pubs2 (extract_title_from_context window)); cbn [negb].
    + unfold ret. now apply IH.
    + unfold ret. rewrite !now_tick. apply IH. now apply map_content_snoc.
  - unfold ret. now apply IH.
Qed.

Lemma text_pass_content page_text : forall entries pubs1 pubs2 w1 w2,
  map record_content pubs1 = map record_content pubs2 ->
  map record_content (records_of (text_pass env1 page_text entries pubs1 w1))
  = map record_content (records_of (text_pass env2 page_text entries pubs2 w2)).
Proof.
  induction entries as [|[id pub_config] rest IH]; intros pubs1 pubs2 w1 w2 H;
    [exact H|].
  cbn [text_pass]. unfold bind.
  pose proof (scan_matches_content page_text id pub_config
                (re_finditer true (pe_regex pub_config) page_text)
                pubs1 pubs2 w1 w2 H) as Hscan.
  destruct (scan_matches_spec env1 page_text id pub_config
              (re_finditer true (pe_regex pub_config) page_text) pubs1 w1)
    as (added1 & w1' & Hrun1 & _).
  destruct (scan_matches_spec env2 page_text id pub_config
              (re_finditer true (pe_regex pub_config) page_text) pubs2 w2)
    as (added2 & w2' & Hrun2 & _).
  rewrite Hrun1, Hrun2 in *. now apply IH.
Qed.

Lemma extract_content (w1 w2 : World) :
  session_get env1 = session_get env2 ->
  (forall page, BeautifulSoup env1 page = BeautifulSoup env2 page) ->
  map record_content (records_of (extract_publications_from_page env1 w1))
  = map record_content (records_of (extract_publications_from_page env2 w2)).
Proof.
  intros Hget Hparse.
  unfold extract_publications_from_page, try_except, bind, lift.
  rewrite !emit_with_events, <- Hget.
  destruct (session_get env1) as [response|e]; [|reflexivity].
  unfold raise_for_status, raise, ret.
  destruct ((400 <=? status_code response) && (status_code response <? 600))%Z;
    [reflexivity|].
  rewrite <- Hparse.
  destruct (BeautifulSoup env1 (content response)) as [soup|e]; [|reflexivity].
  pose proof (structural_pass_content (find_all soup) [] []
                (with_events w1 [EvHttpGet publications_url 30])
                (with_events w2 [EvHttpGet publications_url 30]) eq_refl) as Hs.
  destruct (structural_pass_spec env1 (find_all soup) []
              (with_events w1 [EvHttpGet publications_url 30]))
    as (s1 & w1' & Hrun1 & _).
  destruct (structural_pass_spec env2 (find_all soup) []
              (with_events w2 [EvHttpGet publications_url 30]))
    as (s2 & w2' & Hrun2 & _).
  simpl in Hrun1, Hrun2. rewrite Hrun1, Hrun2 in *.
  unfold records_of in Hs. simpl in Hs. cbv beta iota.
  pose proof (text_pass_content (get_text soup) publication_patterns
                s1 s2 w1' w2' Hs) as Ht.
  destruct (text_pass_spec env1 (get_text soup) publication_patterns s1 w1')
    as (t1 & w1'' & Hrun1' & _).
  destruct (text_pass_spec env2 (get_text soup) publication_patterns s2 w2')
    as (t2 & w2'' & Hrun2' & _).
  rewrite Hrun1', Hrun2' in *. cbv beta iota.
  unfold log_info. rewrite !emit_with_events. exact Ht.
Qed.

(** X7. Running the extraction twice on the same page gives the same
    records up to their time stamps: when the site gives the same answer
    and the parser the same document, two extractions return lists that
    agree in every field but [extracted_at], whatever the clock and the
    state of the two runs. *)
Theorem extraction_is_repeatable (w1 w2 : World) :
  session_get env1 = session_get env2 ->
  (forall page, BeautifulSoup env1 page = BeautifulSoup env2 page) ->
  exists pubs1 pubs2 w1' w2',
    extract_publications_from_page env1 w1 = (Ok pubs1, w1') /\
    extract_publications_from_page env2 w2 = (Ok pubs2, w2') /\
    map record_content pubs1 = map record_content pubs2.
Proof.
  intros Hget Hparse.
  pose proof (extract_content w1 w2 Hget Hparse) as H.
  destruct (extract_provenance env1 w1) as (pubs1 & w1' & Hrun1 & _).
  destruct (extract_provenance env2 w2) as (pubs2 & w2' & Hrun2 & _).
  exists pubs1, pubs2, w1', w2'. rewrite Hrun1, Hrun2 in H. auto.
Qed.

End Repeatable.

(** * The message and its sending *)

Section Message.
Context {U : UnicodeDB}.
Variable env : Env.

Lemma well_formed_known r :
  well_formed_record r -> registry_has (pub_id r) = true.
Proof.
  intros (_ & entry & Hget & _). unfold registry_has.
  destruct (existsb (fun e => pystr_eqb (fst e) (pub_id r)) publication_patterns)
    eqn:E; [reflexivity|].
  rewrite (dict_get_missing _ _ E) in Hget. discriminate.
Qed.

(** The rendering loop on records the registry knows: one block for each
    record, in the order of the list, numbered from [i] on. *)
Lemma render_publications_known : forall pubs i html w,
  Forall (fun p => registry_has (pub_id p) = true) pubs ->
  exists blocks,
    render_publications i pubs html w = (Ok (html ++ blocks), w) /\
    length blocks = length pubs /\
    forall k pub,
      nth_error pubs k = Some pub ->
      exists entry,
        dict_get publication_patterns (pub_id pub) = Ok entry /\
        nth_error blocks k = Some (publication_block (i + k) pub entry).
Proof.
  induction pubs as [|pub rest IH]; intros i html w Hknown.
  - exists []. simpl. rewrite app_nil_r. repeat split.
    intros k p Hk. now destruct k.
  - inversion Hknown as [|? ? Hpub Hrest]; subst.
    destruct (dict_get_present _ _ Hpub) as [entry Hentry].
    cbn [render_publications]. unfold bind, lift. rewrite Hentry.
    change (HtmlPublication (str "priority-" ++ str_lower (priority pub)) i
              (title pub)
              (if truthy (date_text pub) then date_text pub else date_unknown)
              (pe_title entry) (priority pub) (firstn 19 (extracted_at pub))
              (source_tag pub) publications_url)
      with (publication_block i pub entry).
    destruct (IH (S i) (html ++ [publication_block i pub entry]) w Hrest)
      as (blocks & -> & Hlen & Hnth).
    exists (publication_block i pub entry :: blocks).
    rewrite <- app_assoc. split; [reflexivity|]. split; [simpl; lia|].
    intros [|k] p Hk; simpl in Hk.
    + injection Hk as <-. exists entry. rewrite Nat.add_0_r. now split.
    + destruct (Hnth k p Hk) as (entry' & He & Hb). exists entry'.
      split; [exact He|]. simpl. now replace (i + S k) with (S i + k) by lia.
Qed.

Lemma create_notification_html_known pubs w :
  Forall (fun p => registry_has (pub_id p) = true) pubs ->
  exists blocks,
    create_notification_html env pubs w
    = (Ok (HtmlHead (length pubs) :: blocks
           ++ [HtmlFoot (strftime (clock env (ticks w)))
                        (length publication_patterns)]),
       tick w) /\
    length blocks = length pubs /\
    forall k pub,
      nth_error pubs k = Some pub ->
      exists entry,
        dict_get publication_patterns (pub_id pub) = Ok entry /\
        nth_error blocks k = Some (publication_block (S k) pub entry).
Proof.
  intros Hknown.
  destruct (render_publications_known 1 [HtmlHead (length pubs)] w Hknown)
    as (blocks & Hrun & Hlen & Hnth).
  exists blocks. unfold create_notification_html, bind. rewrite Hrun.
  rewrite now_tick. unfold ret. simpl.
  repeat split; auto.
Qed.

(** X8. When every record of the list has a [pub_id] of the registry,
    [create_notification_html] returns a body made of the header with the
    number of records, one block for each record in the order of the
    list, numbered from 1, with the display title of the record's
    registry entry as its category, and the footer with the time of one
    reading of the clock and the number of registry entries. *)
Theorem notification_body_has_one_block_per_record pubs (w : World) :
  Forall (fun p => registry_has (pub_id p) = true) pubs ->
  exists blocks,
    create_notification_html env pubs w
    = (Ok (HtmlHead (length pubs) :: blocks
           ++ [HtmlFoot (strftime (clock env (ticks w)))
                        (length publication_patterns)]),
       tick w) /\
    length blocks = length pubs /\
    forall k pub,
      nth_error pubs k = Some pub ->
      exists entry,
        dict_get publication_patterns (pub_id pub) = Ok entry /\
        nth_error blocks k = Some (publication_block (S k) pub entry).
Proof.
  intros Hknown.
  destruct (render_publications_known 1 [HtmlHead (length pubs)] w Hknown)
    as (blocks & Hrun & Hlen & Hnth).
  exists blocks. split; [|split; [exact Hlen | exact Hnth]].
  unfold create_notification_html, bind. rewrite Hrun, now_tick. reflexivity.
Qed.



(** X10. Whatever the extraction returns can be rendered: for every list
    that [extract_publications_from_page] returns, in every state,
    [create_notification_html] raises no [KeyError] and builds the body
    with one block for each record. *)
Theorem extracted_records_can_be_rendered (w w2 : World) :
  exists pubs w' blocks,
    extract_publications_from_page env w = (Ok pubs, w') /\
    create_notification_html env pubs w2
    = (Ok (HtmlHead (length pubs) :: blocks
           ++ [HtmlFoot (strftime (clock env (ticks w2)))
                        (length publication_patterns)]),
       tick w2) /\
    length blocks = length pubs /\
    forall k pub,
      nth_error pubs k = Some pub ->
      exists entry,
        dict_get publication_patterns (pub_id pub) = Ok entry /\
        nth_error blocks k = Some (publication_block (S k) pub entry).
Proof.
  destruct (extract_provenance env w) as (pubs & w' & Hrun & _ & Hs).
  assert (Forall (fun p => registry_has (pub_id p) = true) pubs) as Hknown.
  { eapply stamped_forall; [|exact Hs].
    intros t r (response & soup & _ & _ & Hr).
    apply well_formed_known. now apply from_page_well_formed with env soup t. }
  destruct (create_notification_html_known w2 Hknown) as (blocks & Hc & Hlen & Hnth).
  exists pubs, w', blocks. now repeat split.
Qed.

End Message.

(** * More on the store *)

Section StoreEdges.
Context {J : JsonCodec}.

(** X11. [load_data] keeps whatever document the state file holds when
    [len] is defined on it: an array or a string becomes the store as it
    is, although it is no mapping. A number, a boolean or [null] makes
    [len] raise, and the store becomes the empty mapping. *)
Theorem load_data_keeps_sized_documents (w : World) text v :
  file_content (disk w) = Some text ->
  read_ok (disk w) = true ->
  json_loads text = Some v ->
  exists w',
    load_data w = (Ok tt, w') /\
    disk w' = disk w /\
    known_publications w' =
      match v with
      | JStr _ | JArr _ | JObj _ => v
      | _ => JObj []
      end.
Proof.
  intros Hf Hr Hv.
  destruct (py_len v) as [n|e] eqn:Hn.
  - rewrite (@load_data_reads _ w text v n Hf Hr Hv Hn). eexists.
    split; [reflexivity|]. split; [reflexivity|].
    destruct v; try discriminate; reflexivity.
  - unfold load_data, try_except, bind, get_disk.
    rewrite Hf, Hr, Hv. unfold ret, set_known, get_known, lift. simpl.
    rewrite Hn. eexists. split; [reflexivity|]. split; [reflexivity|].
    destruct v; try discriminate; reflexivity.
Qed.

(** X12. A save that cannot open the state file for writing does not
    raise, changes neither the file nor the store in memory, and logs the
    error: the load that follows restores the mapping that was persisted
    before, not the one that could not be saved. *)
Theorem failed_save_keeps_the_old_file (w : World) text old :
  write_ok (disk w) = false ->
  file_content (disk w) = Some text ->
  read_ok (disk w) = true ->
  json_loads text = Some (JObj old) ->
  exists w1 w2,
    save_data w = (Ok tt, w1) /\
    disk w1 = disk w /\
    known_publications w1 = known_publications w /\
    trace w1 = trace w ++ [EvLog ERROR (SaveFailed OSError)] /\
    load_data w1 = (Ok tt, w2) /\
    known_publications w2 = JObj old.
Proof.
  intros Hw Hf Hr Hv.
  rewrite (save_data_fails w Hw). do 2 eexists.
  split; [reflexivity|]. split; [reflexivity|]. split; [reflexivity|].
  split; [reflexivity|].
  rewrite (@load_data_reads _ _ text (JObj old) (length old)); auto.
Qed.

End StoreEdges.

(** * The model on concrete pages

    The statements below run the model on ASCII text with [ascii_db] and
    on documents that [plain_codec] reads and writes. *)

#[local] Existing Instance ascii_db.
#[local] Existing Instance plain_codec.

(** C1 as stated fails. On a page with a heading that contains a link,
    <h2><a>Monthly Business Survey - June 2025</a></h2>, both elements
    are candidate nodes with the same text: the structural pass makes a
    record of each, and the result holds two records with equal titles. *)
Lemma same_title_twice_counterexample :
  fst (extract_publications_from_page (serving 200 linked_heading_page) fresh_world)
  = Ok [survey_record (str "h2"); survey_record (str "a")] /\
  same_title_ci (survey_record (str "h2")) (survey_record (str "a")).
Proof. split; [vm_compute; reflexivity | reflexivity]. Qed.

(** On a page with a heading for one report and a sentence about another,
    the result is the heading's record followed by a text_search record,
    and their titles differ. *)
Lemma text_search_records_have_unshared_titles_witness :
  fst (extract_publications_from_page (serving 200 mixed_page) fresh_world)
  = Ok [stability_record; prose_record] /\
  source_tag prose_record = str "text_search" /\
  ~ same_title_ci stability_record prose_record.
Proof.
  destruct (text_search_records_have_unshared_titles
              (serving 200 mixed_page) fresh_world)
    as (pubs & w' & Hrun & Hfresh).
  assert (fst (extract_publications_from_page (serving 200 mixed_page) fresh_world)
          = Ok [stability_record; prose_record]) as E
    by (vm_compute; reflexivity).
  split; [exact E|]. split; [reflexivity|].
  rewrite Hrun in E. simpl in E. injection E as ->.
  apply (Hfresh [stability_record] prose_record []);
    [reflexivity | reflexivity | left; left; reflexivity].
Defined.


(** C4 as stated fails. In the window [1/2/2025 and 3 of May 2025] the
    numeric pattern matches at index 0, before the match of any other
    pattern, and yet the Date Extractor returns the later text
    [3 of May 2025]: the first pattern of the list matches there. *)
Lemma date_extractor_first_position_counterexample :
  re_search true numeric_date two_dates = Some (0, 8) /\
  slice 0 8 two_dates = str "1/2/2025" /\
  (forall q s e,
      In q date_patterns -> q <> numeric_date ->
      re_search true q two_dates = Some (s, e) -> 0 < s) /\
  extract_date_from_context two_dates = str "3 of May 2025" /\
  extract_date_from_context two_dates <> slice 0 8 two_dates.
Proof.
  split; [vm_compute; reflexivity|]. split; [vm_compute; reflexivity|].
  split; [|split; [vm_compute; reflexivity | vm_compute; discriminate]].
  intros q s e [<-|[<-|[<-|[]]]] Hne H.
  - vm_compute in H. injection H as <- <-. lia.
  - vm_compute in H. discriminate.
  - now elim Hne.
Qed.

(** In the window [1/2/2025 and 3 of May 2025] the first pattern of the
    list matches at index 13, and its text is the result. *)
Lemma date_extractor_priority_order_witness :
  date_patterns = [] ++ day_of_month_year :: [month_day_year; numeric_date] /\
  Forall (fun q => re_search true q two_dates = None) [] /\
  re_search true day_of_month_year two_dates = Some (13, 26) /\
  extract_date_from_context two_dates = slice 13 26 two_dates /\
  slice 13 26 two_dates = str "3 of May 2025".
Proof.
  assert (date_patterns = [] ++ day_of_month_year :: [month_day_year; numeric_date])
    as H1 by reflexivity.
  assert (Forall (fun q => re_search true q two_dates = None) []) as H2
    by constructor.
  assert (re_search true day_of_month_year two_dates = Some (13, 26)) as H3
    by (vm_compute; reflexivity).
  split; [exact H1|]. split; [exact H2|]. split; [exact H3|].
  split; [|vm_compute; reflexivity].
  exact (proj1 (proj1 (date_extractor_priority_order two_dates)
                  [] day_of_month_year [month_day_year; numeric_date] 13 26
                  H1 H2 H3)).
Defined.

(** C5 as stated fails. A response with status 300 is outside the 2xx
    class, [raise_for_status] does not raise on it, and the page it
    carries is parsed like any other: the result is not empty. *)
Lemma status_300_counterexample :
  session_get (serving 300 linked_heading_page)
  = Ok {| status_code := 300; content := survey_title |} /\
  non_2xx 300 /\
  fst (extract_publications_from_page (serving 300 linked_heading_page) fresh_world)
  = Ok [survey_record (str "h2"); survey_record (str "a")].
Proof.
  split; [reflexivity|]. split; [unfold non_2xx; lia|]. vm_compute; reflexivity.
Qed.

(** The site answers with status 500: the extraction returns the empty
    list after the request and the log line, and the daily check sends
    nothing. *)
Lemma fetch_failure_yields_empty_list_witness :
  fetch_fails (serving 500 linked_heading_page) /\
  (exists e,
      extract_publications_from_page (serving 500 linked_heading_page) fresh_world
      = (Ok [], with_events fresh_world
                  [EvHttpGet publications_url 30; EvLog ERROR (ExtractFailed e)]) /\
      existsb is_send [EvHttpGet publications_url 30;
                       EvLog ERROR (ExtractFailed e)] = false) /\
  (forall w0, exists w' evs,
      run_daily_check (serving 500 linked_heading_page) w0 = (Ok tt, w') /\
      trace w' = trace w0 ++ evs /\
      existsb is_send evs = false) /\
  (forall status body w0,
      ~ (400 <= status < 600)%Z ->
      extract_publications_from_page
        (answering (serving 500 linked_heading_page) status body) w0
      = extract_publications_from_page
          (answering (serving 500 linked_heading_page) 200 body) w0).
Proof.
  assert (fetch_fails (serving 500 linked_heading_page)) as H
    by (unfold fetch_fails; simpl; left; lia).
  split; [exact H|].
  exact (fetch_failure_yields_empty_list (serving 500 linked_heading_page)
           fresh_world H).
Defined.

(** A navigation line, a short line, then a title with blanks around it:
    the title is returned, trimmed. *)
Lemma title_extractor_first_plausible_line_witness :
  map strip (split_on NL title_window)
  = [navigation_line; str "short"]
    ++ str "The Monthly Business Survey for June 2025" :: [str "next"] /\
  Forall (fun l => plausible_title l = false) [navigation_line; str "short"] /\
  plausible_title (str "The Monthly Business Survey for June 2025") = true /\
  extract_title_from_context title_window
  = str "The Monthly Business Survey for June 2025".
Proof.
  assert (map strip (split_on NL title_window)
          = [navigation_line; str "short"]
            ++ str "The Monthly Business Survey for June 2025" :: [str "next"])
    as H1 by (vm_compute; reflexivity).
  assert (Forall (fun l => plausible_title l = false)
                 [navigation_line; str "short"]) as H2
    by (repeat constructor).
  assert (plausible_title (str "The Monthly Business Survey for June 2025") = true)
    as H3 by (vm_compute; reflexivity).
  split; [exact H1|]. split; [exact H2|]. split; [exact H3|].
  destruct (title_extractor_first_plausible_line title_window) as [Hfirst _].
  exact (Hfirst _ _ _ H1 H2 H3).
Defined.

(** The record of [test_notification] on its own *)
Lemma unknown_pub_id_fails_notification_witness :
  (exists p, In p [test_publication sample_time] /\ registry_has (pub_id p) = false) /\
  (exists key,
      registry_has key = false /\
      create_notification_html unreachable [test_publication sample_time] fresh_world
      = (Raise (KeyError key), fresh_world) /\
      send_gmail_notification unreachable [test_publication sample_time] fresh_world
      = (Ok false,
         with_events fresh_world [EvLog ERROR (MailFailed (KeyError key))])).
Proof.
  assert (exists p, In p [test_publication sample_time]
                    /\ registry_has (pub_id p) = false) as H
    by (exists (test_publication sample_time); split; [left|]; reflexivity).
  split; [exact H|].
  exact (proj1 (unknown_pub_id_fails_notification unreachable
                  [test_publication sample_time] fresh_world H)).
Defined.


(** A store with one entry, saved and then loaded in a process that
    starts with an empty store *)
Lemma save_then_load_round_trip_witness :
  known_publications seen_world = JObj sample_members /\
  write_ok (disk seen_world) = true /\
  write_fault (disk seen_world) (json_dumps (JObj sample_members)) = None /\
  read_ok (disk seen_world) = true /\
  json_loads (json_dumps (JObj sample_members)) = Some (JObj sample_members) /\
  exists w1,
    save_data seen_world = (Ok tt, w1) /\
    known_publications w1 = JObj sample_members /\
    file_content (disk w1) = Some (json_dumps (JObj sample_members)) /\
    trace w1 = trace seen_world ++ [EvFileWrite (json_dumps (JObj sample_members));
                                    EvLog INFO SaveDone] /\
    forall w',
      disk w' = disk w1 ->
      exists w2,
        load_data w' = (Ok tt, w2) /\
        known_publications w2 = JObj sample_members /\
        disk w2 = disk w1.
Proof.
  assert (json_loads (json_dumps (JObj sample_members)) = Some (JObj sample_members))
    as Hcodec by (vm_compute; reflexivity).
  assert (write_fault (disk seen_world) (json_dumps (JObj sample_members)) = None)
    as Hfault by (vm_compute; reflexivity).
  split; [reflexivity|]. split; [reflexivity|]. split; [exact Hfault|].
  split; [reflexivity|]. split; [exact Hcodec|].
  exact (@save_then_load_round_trip plain_codec seen_world sample_members
           eq_refl eq_refl Hfault eq_refl Hcodec).
Defined.

(** C10 as stated fails. A mapping with a string that holds a lone
    surrogate is serializable, and the [json] module reads back what it
    wrote for it; the state file can be opened for writing and read. The
    write of that string raises: [save_data] logs the error and leaves
    the file cut before the string, and the [load_data] that follows
    finds no JSON document in it and sets the store to the empty
    mapping. *)
Lemma lone_surrogate_round_trip_counterexample :
  known_publications surrogate_world = JObj surrogate_members /\
  write_ok (disk surrogate_world) = true /\
  read_ok (disk surrogate_world) = true /\
  json_loads (json_dumps (JObj surrogate_members)) = Some (JObj surrogate_members) /\
  exists w1 w2,
    save_data surrogate_world = (Ok tt, w1) /\
    file_content (disk w1)
    = Some (str "{" ++ NL :: str "  " ++ PlainJson.show_string (str "note")
            ++ str ": ") /\
    trace w1 = [EvFileWrite (firstn 12 (json_dumps (JObj surrogate_members)));
                EvLog ERROR (SaveFailed UnicodeEncodeError)] /\
    load_data w1 = (Ok tt, w2) /\
    known_publications w2 = JObj [] /\
    known_publications w2 <> JObj surrogate_members.
Proof.
  split; [reflexivity|]. split; [reflexivity|]. split; [reflexivity|].
  split; [vm_compute; reflexivity|].
  do 2 eexists. split; [vm_compute; reflexivity|].
  split; [vm_compute; reflexivity|]. split; [vm_compute; reflexivity|].
  split; [vm_compute; reflexivity|]. split; [reflexivity|].
  simpl. discriminate.
Qed.

(** A heading that names two reports: both entries match its text, the
    entry for the Monthly Business Survey stands first in the table, and
    the one record made of the node carries its identifier. *)
Lemma structural_pass_first_match_wins_witness :
  map fst (filter (entry_matches joint_title) publication_patterns)
  = [str "monthly_business_survey"; str "financial_stability_report"] /\
  exists recs w',
    structural_pass unreachable [joint_heading] [] fresh_world = (Ok recs, w') /\
    map record_key recs
    = [(str "monthly_business_survey", joint_title, str "h3")].
Proof.
  split; [vm_compute; reflexivity|].
  destruct (structural_pass_first_match_wins unreachable [joint_heading] fresh_world)
    as (recs & w' & Hrun & Hkeys & _).
  exists recs, w'. split; [exact Hrun|].
  rewrite Hkeys. vm_compute. reflexivity.
Defined.

(** The heading <h2>Financial Stability Report - 12th of June 2025</h2>
    gives one record, of the highest priority, dated from the text of the
    heading's container. *)
Example dated_heading_record :
  fst (extract_publications_from_page (serving 200 dated_heading_page) fresh_world)
  = Ok [ {| pub_id := str "financial_stability_report";
            title := dated_title;
            date_text := str "12th of June 2025";
            pattern_matched := str "financial stability report";
            priority := str "Highest";
            extracted_at := isoformat sample_time;
            source_tag := str "h2" |} ].
Proof. vm_compute. reflexivity. Qed.

(** A sentence about the Monthly Business Survey in the running text,
    with no heading or link: the full-text pass makes one record of it,
    although the pattern occurs on two lines. *)
Example prose_only_record :
  fst (extract_publications_from_page (serving 200 prose_page) fresh_world)
  = Ok [prose_record].
Proof. vm_compute. reflexivity. Qed.

(** A record whose [pub_id] the registry knows is rendered, with one
    reading of the clock, and not sent. *)
Example known_record_is_not_sent :
  send_gmail_notification (serving 200 prose_page) [sample_record] fresh_world
  = (Ok false, with_events (tick fresh_world) [EvLog ERROR (MailFailed NameError)]).
Proof. vm_compute. reflexivity. Qed.

(** A page whose one matching node has a text of its own: the result,
    two records, holds no title twice. *)
Lemma distinct_nodes_give_distinct_titles_witness :
  session_get (serving 200 mixed_page)
  = Ok {| status_code := 200; content := get_text mixed_page |} /\
  BeautifulSoup (serving 200 mixed_page) (get_text mixed_page) = Ok mixed_page /\
  NoDup (map (fun key => str_lower (snd (fst key)))
             (flat_map node_classification (find_all mixed_page))) /\
  exists pubs w',
    extract_publications_from_page (serving 200 mixed_page) fresh_world
    = (Ok pubs, w') /\
    NoDup (map (fun r => str_lower (title r)) pubs).
Proof.
  assert (NoDup (map (fun key => str_lower (snd (fst key)))
                     (flat_map node_classification (find_all mixed_page))))
    as H by (vm_compute; constructor; [intros [] | constructor]).
  split; [reflexivity|]. split; [reflexivity|]. split; [exact H|].
  exact (@distinct_nodes_give_distinct_titles ascii_db (serving 200 mixed_page)
           _ mixed_page fresh_world eq_refl eq_refl H).
Defined.

(** The same page fetched at two times, in two states: the records agree
    but for their time stamps. *)
Lemma extraction_is_repeatable_witness :
  session_get (serving 200 mixed_page) = session_get (serving_later 200 mixed_page) /\
  (forall page, BeautifulSoup (serving 200 mixed_page) page
                = BeautifulSoup (serving_later 200 mixed_page) page) /\
  exists pubs1 pubs2 w1' w2',
    extract_publications_from_page (serving 200 mixed_page) fresh_world
    = (Ok pubs1, w1') /\
    extract_publications_from_page (serving_later 200 mixed_page) seen_world
    = (Ok pubs2, w2') /\
    map record_content pubs1 = map record_content pubs2.
Proof.
  split; [reflexivity|]. split; [reflexivity|].
  exact (@extraction_is_repeatable ascii_db (serving 200 mixed_page)
           (serving_later 200 mixed_page) fresh_world seen_world
           eq_refl (fun _ => eq_refl)).
Defined.

(** One record of the registry: a body of header, one block and footer *)
Lemma notification_body_has_one_block_per_record_witness :
  Forall (fun p => registry_has (pub_id p) = true) [sample_record] /\
  exists blocks,
    create_notification_html unreachable [sample_record] fresh_world
    = (Ok (HtmlHead 1 :: blocks
           ++ [HtmlFoot (strftime sample_time) (length publication_patterns)]),
       tick fresh_world) /\
    length blocks = 1 /\
    forall k pub,
      nth_error [sample_record] k = Some pub ->
      exists entry,
        dict_get publication_patterns (pub_id pub) = Ok entry /\
        nth_error blocks k = Some (publication_block (S k) pub entry).
Proof.
  assert (Forall (fun p => registry_has (pub_id p) = true) [sample_record]) as H
    by (repeat constructor).
  split; [exact H|].
  exact (@notification_body_has_one_block_per_record ascii_db unreachable
           [sample_record] fresh_world H).
Defined.

(** A state file that holds an empty array: the store becomes that array *)
Lemma load_data_keeps_sized_documents_witness :
  file_content (disk (world_with_file (str "[]") true)) = Some (str "[]") /\
  read_ok (disk (world_with_file (str "[]") true)) = true /\
  json_loads (str "[]") = Some (JArr []) /\
  exists w',
    load_data (world_with_file (str "[]") true) = (Ok tt, w') /\
    disk w' = disk (world_with_file (str "[]") true) /\
    known_publications w' = JArr [].
Proof.
  assert (json_loads (str "[]") = Some (JArr [])) as H
    by (vm_compute; reflexivity).
  split; [reflexivity|]. split; [reflexivity|]. split; [exact H|].
  exact (@load_data_keeps_sized_documents plain_codec
           (world_with_file (str "[]") true) (str "[]") (JArr [])
           eq_refl eq_refl H).
Defined.

(** A state file that holds the empty mapping and cannot be written,
    with a store of one entry in memory: after the failed save, the load
    gives the empty mapping back. *)
Lemma failed_save_keeps_the_old_file_witness :
  write_ok (disk (read_only_world (str "{}"))) = false /\
  file_content (disk (read_only_world (str "{}"))) = Some (str "{}") /\
  read_ok (disk (read_only_world (str "{}"))) = true /\
  json_loads (str "{}") = Some (JObj []) /\
  exists w1 w2,
    save_data (read_only_world (str "{}")) = (Ok tt, w1) /\
    disk w1 = disk (read_only_world (str "{}")) /\
    known_publications w1 = known_publications (read_only_world (str "{}")) /\
    trace w1 = trace (read_only_world (str "{}"))
               ++ [EvLog ERROR (SaveFailed OSError)] /\
    load_data w1 = (Ok tt, w2) /\
    known_publications w2 = JObj [].
Proof.
  assert (json_loads (str "{}") = Some (JObj [])) as H
    by (vm_compute; reflexivity).
  split; [reflexivity|]. split; [reflexivity|]. split; [reflexivity|].
  split; [exact H|].
  exact (@failed_save_keeps_the_old_file plain_codec
           (read_only_world (str "{}")) (str "{}") [] eq_refl eq_refl eq_refl H).
Defined.

(** The second mention of the survey in [prose_page], at characters 61
    to 84 of 92: the window is the whole text. *)
Lemma context_window_surrounds_match_witness :
  In (61, 84) (re_finditer true (lit "monthly business survey")
                           (get_text prose_page)) /\
  exists before after,
    context_window (get_text prose_page) 61 84
    = before ++ slice 61 84 (get_text prose_page) ++ after /\
    length before <= 200 /\ length after <= 200 /\
    length (slice 61 84 (get_text prose_page)) = 84 - 61 /\
    piece_of (context_window (get_text prose_page) 61 84) (get_text prose_page).
Proof.
  assert (In (61, 84) (re_finditer true (lit "monthly business survey")
                                   (get_text prose_page))) as H
    by (vm_compute; right; left; reflexivity).
  split; [exact H|].
  exact (@context_window_surrounds_match ascii_db true
           (lit "monthly business survey") (get_text prose_page) 61 84 H).
Defined.
